(** * Block colour support: attribute resolution, change handlers,
      save-time class names and contrast sampling

    A shallow embedding of the block-editor colour hook
    ([addAttributes], [addSaveProps], [ColorPanel], [withBlockControls])
    together with the properties its specification states about it.

    JavaScript objects are finite maps from property names to values;
    the mutable ref [localAttributes] and the calls to
    [props.setAttributes] are threaded through an explicit state.

    The file also embeds [addEditProps] and the automation script
    [addFirstTimeContributorLabel], whose requests are recorded in the
    order they are sent. *)

From stdpp Require Import gmap strings pretty list fin_maps.

Set Warnings "-register-all".

Open Scope string_scope.

(** ** JavaScript values *)

Inductive JSValue :=
| VUndefined
| VBool (b : bool)
| VString (s : string)
| VObject (fields : gmap string JSValue).

Abbreviation object := (gmap string JSValue).

(** Truthiness, as tested by [if], [!], [&&], [||] and [? :]. *)
Definition truthy (v : JSValue) : bool :=
  match v with
  | VUndefined => false
  | VBool b => b
  | VString s => negb (String.eqb s "")
  | VObject _ => true
  end.

(** [a || b] and [a && b] on values. *)
Definition jsOr (a b : JSValue) : JSValue := if truthy a then a else b.
Definition jsAnd (a b : JSValue) : JSValue := if truthy a then b else a.

(** lodash [isObject], on the values modelled here. *)
Definition isObject (v : JSValue) : bool :=
  match v with VObject _ => true | _ => false end.

(** Optional member access [v?.k]; a property that is not there reads as
    [undefined], and so does any property of a primitive. *)
Definition getProp (v : JSValue) (k : string) : JSValue :=
  match v with
  | VObject fields => default VUndefined (fields !! k)
  | _ => VUndefined
  end.

(** Member access [o.k] on an object held as a map. *)
Definition getAttr (o : object) (k : string) : JSValue :=
  default VUndefined (o !! k).

(** The own enumerable properties copied by an object spread [{...v}]:
    those of an object, the indexed characters of a string, none for
    [undefined] and booleans. *)
Fixpoint stringEntries (i : nat) (s : string) : object :=
  match s with
  | EmptyString => ∅
  | String c rest =>
      <[pretty i := VString (String c EmptyString)]> (stringEntries (S i) rest)
  end.

Definition spread (v : JSValue) : object :=
  match v with
  | VObject fields => fields
  | VString s => stringEntries 0 s
  | _ => ∅
  end.

Definition ofOption (v : option string) : JSValue :=
  match v with Some s => VString s | None => VUndefined end.

(** ** Collapsing empty containers *)

Definition keepDefined (v : JSValue) : option JSValue :=
  match v with VUndefined => None | _ => Some v end.

(** Modelled from the spec: [cleanEmptyObject] is imported from
    [./utils], which is not among the sources.  Following the minimality
    rule of the data model and step 4 of the merger contract, a value
    that is not an object is returned as it is; in an object every
    property is cleaned in turn, the properties left [undefined] are
    dropped, and an object left without properties collapses to
    [undefined]. *)
Fixpoint cleanEmptyObject (v : JSValue) : JSValue :=
  match v with
  | VObject fields =>
      let cleaned := omap (λ x, keepDefined (cleanEmptyObject x)) fields in
      if decide (cleaned = ∅) then VUndefined else VObject cleaned
  | _ => v
  end.

(** ** Palette and gradient catalogs *)

(** Modelled from the spec: the catalogs are owned by the editor
    settings; an ordered sequence of entries [{ slug, value }]. *)
Record CatalogEntry := mkEntry { slug : string; entryValue : string }.

Abbreviation catalog := (list CatalogEntry).

(** Modelled from the spec: [resolveByValue], exact value match, first
    entry wins; [undefined] never matches. *)
Definition resolveByValue (c : catalog) (v : option string) : option CatalogEntry :=
  match v with
  | Some s => find (λ e, String.eqb (entryValue e) s) c
  | None => None
  end.

(** Modelled from the spec: [resolveBySlug], forward lookup; an unknown
    slug resolves to [undefined]. *)
Definition resolveBySlug (c : catalog) (s : JSValue) : JSValue :=
  match s with
  | VString name =>
      match find (λ e, String.eqb (slug e) name) c with
      | Some e => VString (entryValue e)
      | None => VUndefined
      end
  | _ => VUndefined
  end.

(** Modelled from the spec: [getColorObjectByColorValue] of
    [../components/colors] is the reverse lookup in the palette. *)
Definition getColorObjectByColorValue (colors : catalog) (v : option string)
  : option CatalogEntry :=
  resolveByValue colors v.

(** Modelled from the spec: [getGradientSlugByValue] of
    [../components/gradients] is the slug of the reverse lookup in the
    gradient catalog. *)
Definition getGradientSlugByValue (gradients : catalog) (v : option string) : JSValue :=
  match resolveByValue gradients v with
  | Some e => VString (slug e)
  | None => VUndefined
  end.

(** Modelled from the spec: [getGradientValueBySlug] of
    [../components/gradients] is the forward lookup. *)
Definition getGradientValueBySlug (gradients : catalog) (s : JSValue) : JSValue :=
  resolveBySlug gradients s.

(** [colorObject?.slug] *)
Definition slugOf (colorObject : option CatalogEntry) : JSValue :=
  match colorObject with Some e => VString (slug e) | None => VUndefined end.

(** ** Block types and their declared support *)

Definition COLOR_SUPPORT_KEY : string := "__experimentalColor".

Record BlockType := mkBlockType {
  supports : object;
  attributes : object
}.

(** Modelled from the spec: [getBlockSupport] of [@wordpress/blocks],
    the capability configuration declared under a key, [undefined] when
    there is none. *)
Definition getBlockSupport (blockType : BlockType) (feature : string) : JSValue :=
  getAttr (supports blockType) feature.

(** Modelled from the spec: [hasBlockSupport] of [@wordpress/blocks],
    whether a capability is declared. *)
Definition hasBlockSupport (blockType : BlockType) (feature : string) : bool :=
  truthy (getBlockSupport blockType feature).

Definition hasColorSupport (blockType : BlockType) : bool :=
  hasBlockSupport blockType COLOR_SUPPORT_KEY.

Definition hasGradientSupport (blockType : BlockType) : bool :=
  let colorSupport := getBlockSupport blockType COLOR_SUPPORT_KEY in
  isObject colorSupport && truthy (getProp colorSupport "gradients").

(** ** addAttributes *)

Definition stringAttribute : JSValue := VObject {[ "type" := VString "string" ]}.

Definition assignIfMissing (name : string) (attrs : object) : object :=
  if truthy (getAttr attrs name) then attrs else <[name := stringAttribute]> attrs.

Definition addAttributes (settings : BlockType) : BlockType :=
  if negb (hasColorSupport settings) then settings
  else
    let attrs := assignIfMissing "backgroundColor" (attributes settings) in
    let attrs := assignIfMissing "textColor" attrs in
    let attrs :=
      if hasGradientSupport settings && negb (truthy (getAttr attrs "gradient"))
      then <["gradient" := stringAttribute]> attrs
      else attrs in
    mkBlockType (supports settings) attrs.

(** ** Class names *)

(** The string a value becomes when it is used as a property key. *)
Definition toPropertyKey (v : JSValue) : string :=
  match v with
  | VUndefined => "undefined"
  | VBool true => "true"
  | VBool false => "false"
  | VString s => s
  | VObject _ => "[object Object]"
  end.

(** An object literal keeps its keys in the order they were first
    written; writing a key again replaces its value in place. *)
Fixpoint setEntry (k : string) (v : JSValue) (entries : list (string * JSValue))
  : list (string * JSValue) :=
  match entries with
  | [] => [(k, v)]
  | (k', v') :: rest =>
      if String.eqb k' k then (k, v) :: rest else (k', v') :: setEntry k v rest
  end.

Definition objectLiteral (kvs : list (JSValue * JSValue)) : list (string * JSValue) :=
  foldl (λ acc kv, setEntry (toPropertyKey kv.1) kv.2 acc) [] kvs.

(** Arguments of the [classnames] package: a plain value, or an object
    literal from class name to condition. *)
Inductive classArg :=
| ClassValue (v : JSValue)
| ClassMap (entries : list (string * JSValue)).

Definition truthyKeys (entries : list (string * JSValue)) : list string :=
  (filter (λ kv, truthy kv.2 = true) entries).*1.

Definition classTokens (arg : classArg) : list string :=
  match arg with
  | ClassValue (VString s) => if truthy (VString s) then [s] else []
  | ClassValue (VObject fields) => truthyKeys (map_to_list fields)
  | ClassValue _ => []
  | ClassMap entries => truthyKeys entries
  end.

Definition classnamesList (args : list classArg) : list string :=
  concat (map classTokens args).

Definition classnames (args : list classArg) : string :=
  String.concat " " (classnamesList args).

Section SaveProps.

(** The two class-name helpers live in [../components/colors] and
    [../components/gradients]; the hook only relies on their results. *)
Variable getColorClassName : string → JSValue → JSValue.
Variable __experimentalGetGradientClass : JSValue → JSValue.

Definition saveClassArgs (props : object) (blockType : BlockType)
    (attributes : object) : list classArg :=
  let hasGradient := hasGradientSupport blockType in
  let backgroundColor := getAttr attributes "backgroundColor" in
  let textColor := getAttr attributes "textColor" in
  let gradient := getAttr attributes "gradient" in
  let style := getAttr attributes "style" in
  let backgroundClass := getColorClassName "background-color" backgroundColor in
  let gradientClass := __experimentalGetGradientClass gradient in
  let textClass := getColorClassName "color" textColor in
  [ ClassValue (getAttr props "className");
    ClassValue textClass;
    ClassValue gradientClass;
    ClassMap (objectLiteral
      [ (backgroundClass,
          VBool ((negb hasGradient
                  || negb (truthy (getProp (getProp style "color") "gradient")))
                 && truthy backgroundClass));
        (VString "has-text-color",
          jsOr textColor (getProp (getProp style "color") "text"));
        (VString "has-background",
          jsOr backgroundColor
            (jsOr (getProp (getProp style "color") "background")
               (jsAnd (VBool hasGradient)
                  (jsOr gradient
                     (getProp (getProp style "color") "gradient"))))) ]) ].

Definition addSaveProps (props : object) (blockType : BlockType)
    (attributes : object) : object :=
  if negb (hasColorSupport blockType) then props
  else
    let newClassName := classnames (saveClassArgs props blockType attributes) in
    <["className" :=
        if truthy (VString newClassName) then VString newClassName
        else VUndefined]> props.

End SaveProps.

(** ** ColorPanel: detecting the rendered colours *)

(** The two properties read from a computed style. *)
Record CSSStyle := mkStyle { color : string; backgroundColor : string }.

(** A DOM node: its type, the style the browser computes for it when it
    is an element, and its parent. *)
Inductive Node :=
| mkNode (nodeType : nat) (computed : CSSStyle) (parentNode : option Node).

Definition ELEMENT_NODE : nat := 1.
Definition DOCUMENT_NODE : nat := 9.

Definition nodeType (n : Node) : nat :=
  match n with mkNode t _ _ => t end.
Definition parentNode (n : Node) : option Node :=
  match n with mkNode _ _ p => p end.

(** [window.getComputedStyle]: a style for an element; for any other
    node it throws, which [None] stands for. *)
Definition getComputedStyle (n : Node) : option CSSStyle :=
  match n with
  | mkNode t computed _ => if Nat.eqb t ELEMENT_NODE then Some computed else None
  end.

Definition TRANSPARENT : string := "rgba(0, 0, 0, 0)".

(** The [while] loop of the effect, entered with [backgroundColorNode]
    and the [backgroundColor] read from it: it climbs while that colour
    is the transparent one and the parent is an element, reading the
    parent's colour at each step, and yields the last colour read. *)
Fixpoint ancestorBackground (backgroundColorNode : Node)
    (backgroundColor : string) : option string :=
  match backgroundColorNode with
  | mkNode _ _ parent =>
      if String.eqb backgroundColor TRANSPARENT then
        match parent with
        | Some p =>
            if Nat.eqb (nodeType p) ELEMENT_NODE then
              match getComputedStyle p with
              | Some (mkStyle _ read) => ancestorBackground p read
              | None => None
              end
            else Some backgroundColor
        | None => Some backgroundColor
        end
      else Some backgroundColor
  end.

(** The two pieces of component state, both created by [useState()]. *)
Record Detected := mkDetected {
  detectedBackgroundColor : option string;
  detectedColor : option string
}.

Definition initialDetected : Detected := mkDetected None None.

(** The effect run after each render of [ColorPanel];
    [colorsDetectionElement] is what [getBlockDOMNode( clientId )]
    returned.  The result is the state the effect leaves, or [None] if
    it threw. *)
Definition colorsDetectionEffect (colorsDetectionElement : option Node)
    (st : Detected) : option Detected :=
  match colorsDetectionElement with
  | None => Some st
  | Some el =>
      computed ← getComputedStyle el;
      found ← ancestorBackground el (backgroundColor computed);
      Some (mkDetected (Some found) (Some (color computed)))
  end.

(** ** withBlockControls: the local shadow and the change handlers *)

(** What a mounted edit component holds between renders: the attributes
    in the ref [localAttributes] ([localAttributes.current]), and the
    updates handed to [props.setAttributes] so far, oldest first. *)
Record EditState := mkEditState {
  localAttributes : object;
  committed : list object
}.

(** The tail shared by both handlers:
    [props.setAttributes( newAttributes )], then
    [localAttributes.current = { ...localAttributes.current, ...newAttributes }]. *)
Definition commit (newAttributes : object) (st : EditState) : EditState :=
  mkEditState (newAttributes ∪ localAttributes st)
              (committed st ++ [newAttributes]).

(** [newAttributes] as [onChangeColor( name )( value )] builds it from
    the ref. *)
Definition colorAttributes (colors : catalog) (name : string)
    (value : option string) (current : object) : object :=
  let colorObject := getColorObjectByColorValue colors value in
  let attributeName := name +:+ "Color" in
  let newStyle :=
    VObject (<["color" :=
                 VObject (<[name := if truthy (slugOf colorObject)
                                    then VUndefined else ofOption value]>
                            (spread (getProp (getAttr current "style") "color")))]>
               (spread (getAttr current "style"))) in
  let newNamedColor :=
    if truthy (slugOf colorObject) then slugOf colorObject else VUndefined in
  <[attributeName := newNamedColor]> {[ "style" := cleanEmptyObject newStyle ]}.

Definition onChangeColor (colors : catalog) (name : string)
    (value : option string) (st : EditState) : EditState :=
  commit (colorAttributes colors name value (localAttributes st)) st.

(** [newAttributes] as [onChangeGradient( value )] builds it from the
    ref. *)
Definition gradientAttributes (gradients : catalog) (value : option string)
    (current : object) : object :=
  let slug := getGradientSlugByValue gradients value in
  if truthy slug then
    let newStyle :=
      VObject (<["color" :=
                   VObject (<["gradient" := VUndefined]>
                              (spread (getProp (getAttr current "style") "color")))]>
                 (spread (getAttr current "style"))) in
    <["gradient" := slug]> {[ "style" := cleanEmptyObject newStyle ]}
  else
    let newStyle :=
      VObject (<["color" :=
                   VObject (<["gradient" := ofOption value]>
                              (spread (getProp (getAttr current "style") "color")))]>
                 (spread (getAttr current "style"))) in
    <["gradient" := VUndefined]> {[ "style" := cleanEmptyObject newStyle ]}.

Definition onChangeGradient (gradients : catalog) (value : option string)
    (st : EditState) : EditState :=
  commit (gradientAttributes gradients value (localAttributes st)) st.

(** The effect [localAttributes.current = attributes], run after every
    render with the attributes of the props just delivered. *)
Definition hostRender (attributes : object) (st : EditState) : EditState :=
  mkEditState attributes (committed st).

(** A component freshly mounted with [attributes]:
    [useRef( attributes )], nothing committed yet. *)
Definition mount (attributes : object) : EditState :=
  mkEditState attributes [].

(** The gradient shown by the panel. *)
Definition gradientValue (blockType : BlockType) (gradients : catalog)
    (attributes : object) : JSValue :=
  let hasGradient := hasGradientSupport blockType in
  let style := getAttr attributes "style" in
  let gradient := getAttr attributes "gradient" in
  if hasGradient && truthy gradient then getGradientValueBySlug gradients gradient
  else if hasGradient then getProp (getProp style "color") "gradient"
  else VUndefined.

(** ** Channels and traces *)

(** The three channels the panel edits. *)
Inductive Channel := Text | Background | Gradient.

Global Instance Channel_eq_dec : EqDecision Channel.
Proof. solve_decision. Defined.

(** The attribute that holds the channel's slug. *)
Definition slugAttribute (ch : Channel) : string :=
  match ch with
  | Text => "textColor"
  | Background => "backgroundColor"
  | Gradient => "gradient"
  end.

(** The key of the channel's raw override under [style.color]. *)
Definition overrideKey (ch : Channel) : string :=
  match ch with
  | Text => "text"
  | Background => "background"
  | Gradient => "gradient"
  end.

Definition channelSlug (attributes : object) (ch : Channel) : JSValue :=
  getAttr attributes (slugAttribute ch).

Definition channelOverride (attributes : object) (ch : Channel) : JSValue :=
  getProp (getProp (getAttr attributes "style") "color") (overrideKey ch).

(** The handler the panel wires to each channel:
    [onChangeColor( 'text' )], [onChangeColor( 'background' )],
    [onChangeGradient]. *)
Definition changeChannel (colors gradients : catalog) (ch : Channel)
    (value : option string) (st : EditState) : EditState :=
  match ch with
  | Text => onChangeColor colors "text" value st
  | Background => onChangeColor colors "background" value st
  | Gradient => onChangeGradient gradients value st
  end.

Definition channelCatalog (colors gradients : catalog) (ch : Channel) : catalog :=
  match ch with Gradient => gradients | _ => colors end.

(** What can happen to a mounted component: the host renders it with
    new attributes, or the user changes a channel. *)
Inductive Event :=
| HostRender (attributes : object)
| Change (ch : Channel) (value : option string).

Definition step (colors gradients : catalog) (st : EditState) (ev : Event)
  : EditState :=
  match ev with
  | HostRender attributes => hostRender attributes st
  | Change ch value => changeChannel colors gradients ch value st
  end.

Definition run (colors gradients : catalog) (evs : list Event) (st : EditState)
  : EditState :=
  foldl (step colors gradients) st evs.

(** The update a channel's handler hands to [props.setAttributes] when
    the ref holds [current]. *)
Definition channelAttributes (colors gradients : catalog) (ch : Channel)
    (value : option string) (current : object) : object :=
  match ch with
  | Text => colorAttributes colors "text" value current
  | Background => colorAttributes colors "background" value current
  | Gradient => gradientAttributes gradients value current
  end.

(** A batch of channel changes with no render in between. *)
Definition batch (changes : list (Channel * option string)) : list Event :=
  map (λ c, Change c.1 c.2) changes.

(** The updates a batch hands to [props.setAttributes], one per change,
    each computed from the attributes the ref holds at that point:
    [current] merged with the updates before it. *)
Fixpoint batchUpdates (colors gradients : catalog)
    (changes : list (Channel * option string)) (current : object) : list object :=
  match changes with
  | [] => []
  | (ch, value) :: rest =>
      let newAttributes := channelAttributes colors gradients ch value current in
      newAttributes :: batchUpdates colors gradients rest (newAttributes ∪ current)
  end.

(** Merging updates into attributes, oldest first:
    [{ ...attributes, ...update }] for each. *)
Definition mergeUpdates (attributes : object) (updates : list object) : object :=
  foldl (λ acc update, update ∪ acc) attributes updates.

(** ** Notions used to state the properties *)

(** The style object both handlers build before cleaning it: the style
    of the ref with [color[key]] set to [x]. *)
Definition withOverride (current : object) (key : string) (x : JSValue) : JSValue :=
  VObject (<["color" :=
               VObject (<[key := x]>
                          (spread (getProp (getAttr current "style") "color")))]>
             (spread (getAttr current "style"))).

(** What the handler writes into [color[key]]: nothing when the reverse
    lookup yields a slug, the value itself otherwise. *)
Definition writtenOverride (c : catalog) (value : option string) : JSValue :=
  if truthy (slugOf (resolveByValue c value)) then VUndefined else ofOption value.

(** The colour object of the style a channel change builds, before it
    is cleaned. *)
Definition updatedColor (colors gradients : catalog) (ch : Channel)
    (value : option string) (current : object) : object :=
  <[overrideKey ch := writtenOverride (channelCatalog colors gradients ch) value]>
    (spread (getProp (getAttr current "style") "color")).

(** Every property of the object is empty: it cleans to [undefined]. *)
Definition allEmpty (fields : object) : Prop :=
  ∀ k, cleanEmptyObject (getAttr fields k) = VUndefined.

(** Every entry of the catalog carries a slug. *)
Definition wfCatalog (c : catalog) : Prop :=
  Forall (λ e, slug e ≠ "") c.

Section SavedClasses.

Variable getColorClassName : string → JSValue → JSValue.
Variable __experimentalGetGradientClass : JSValue → JSValue.

(** The classes of a saved block when the background class stays out:
    those of [props.className], the text class, the gradient class,
    [has-text-color] if a text colour is set, and [has-background]. *)
Definition classesWithoutBackground (props attributes : object) : list string :=
  (classTokens (ClassValue (getAttr props "className"))
   ++ classTokens
        (ClassValue (getColorClassName "color" (getAttr attributes "textColor")))
   ++ classTokens
        (ClassValue (__experimentalGetGradientClass (getAttr attributes "gradient")))
   ++ (if truthy (jsOr (getAttr attributes "textColor")
                    (channelOverride attributes Text))
       then ["has-text-color"] else [])
   ++ ["has-background"])%list.

(** The classes [addSaveProps] computes. *)
Definition savedClasses (props : object) (blockType : BlockType)
    (attributes : object) : list string :=
  classnamesList
    (saveClassArgs getColorClassName __experimentalGetGradientClass
       props blockType attributes).

(** The saved [className] is made of the classes the filter computes,
    these are the ones above up to their order, and [has-background] is
    among them. *)
Definition backgroundSuppressed (props : object) (blockType : BlockType)
    (attributes : object) : Prop :=
  getAttr
    (addSaveProps getColorClassName __experimentalGetGradientClass
       props blockType attributes)
    "className"
  = VString (String.concat " " (savedClasses props blockType attributes))
  ∧ savedClasses props blockType attributes
    ≡ₚ classesWithoutBackground props attributes
  ∧ "has-background" ∈ savedClasses props blockType attributes.

End SavedClasses.

(** The resolver as the specification words it: the forward lookup of
    the slug when there is a slug, the raw override unchanged when there
    is none. *)
Definition effectiveValue (slug rawOverride : JSValue) (c : catalog) : JSValue :=
  if truthy slug then resolveBySlug c slug else rawOverride.

(** The node the sampler starts at, followed by its ancestors for as
    long as they are elements. *)
Fixpoint elementAncestors (n : Node) : list Node :=
  match n with
  | mkNode _ _ parent =>
      n :: match parent with
           | Some p =>
               if Nat.eqb (nodeType p) ELEMENT_NODE then elementAncestors p
               else []
           | None => []
           end
  end.

(** The background colour in the style a node carries. *)
Definition backgroundOf (n : Node) : string :=
  match n with mkNode _ computed _ => backgroundColor computed end.

Definition colorOf (n : Node) : string :=
  match n with mkNode _ computed _ => color computed end.

Definition isTransparent (c : string) : bool := String.eqb c TRANSPARENT.

(** The first colour along the element ancestors that is not the
    transparent one, and the transparent one if there is none. *)
Definition firstOpaque (n : Node) : string :=
  default TRANSPARENT
    (find (λ c, negb (isTransparent c)) (backgroundOf <$> elementAncestors n)).

(** The detected colours after a series of renders of [ColorPanel],
    given what the node lookup returned at each; [None] if an effect
    threw. *)
Definition detectedAfter (lookups : list (option Node)) : option Detected :=
  foldl (λ st el, st ≫= colorsDetectionEffect el) (Some initialDetected) lookups.

(** Induction along the parent chain of a node. *)
Fixpoint Node_parent_ind (P : Node → Prop)
    (Hroot : ∀ t computed, P (mkNode t computed None))
    (Hchild : ∀ t computed p, P p → P (mkNode t computed (Some p)))
    (n : Node) : P n :=
  match n with
  | mkNode t computed None => Hroot t computed
  | mkNode t computed (Some p) =>
      Hchild t computed p (Node_parent_ind P Hroot Hchild p)
  end.

(** ** Colours that denote full transparency *)

Definition charOf (s : string) : Ascii.ascii :=
  match s with
  | String c _ => c
  | EmptyString => Ascii.ascii_of_nat 0
  end.

Fixpoint splitOn (sep : Ascii.ascii) (s : string) : list string :=
  match s with
  | EmptyString => [EmptyString]
  | String c rest =>
      match splitOn sep rest with
      | current :: others =>
          if Ascii.eqb c sep then EmptyString :: current :: others
          else String c current :: others
      | [] => []
      end
  end.

Fixpoint withoutSpaces (s : string) : string :=
  match s with
  | EmptyString => EmptyString
  | String c rest =>
      if Ascii.eqb c (charOf " ") then withoutSpaces rest
      else String c (withoutSpaces rest)
  end.

Fixpoint onlyZeros (s : string) : bool :=
  match s with
  | EmptyString => true
  | String c rest => Ascii.eqb c (charOf "0") && onlyZeros rest
  end.

(** A numeral that is zero: [0], [0.0], [.0] and the like. *)
Definition isZeroNumeral (s : string) : bool :=
  match splitOn (charOf ".") s with
  | [whole] => onlyZeros whole && negb (String.eqb whole "")
  | [whole; fraction] =>
      onlyZeros whole && onlyZeros fraction
      && negb (String.eqb (whole +:+ fraction) "")
  | _ => false
  end.

(** Full transparency as the specification means it, read from the
    colour and not from one spelling of it: the keyword [transparent],
    or an [rgba(...)] colour whose alpha component is zero, whatever
    its other components and its spacing. *)
Definition denotesFullTransparency (c : string) : bool :=
  String.eqb c "transparent"
  || (String.prefix "rgba(" c
      && String.eqb (String.substring (String.length c - 1) 1 c) ")"
      && match splitOn (charOf ",")
                 (String.substring 5 (String.length c - 6) c) with
         | [_; _; _; alpha] => isZeroNumeral (withoutSpaces alpha)
         | _ => false
         end).

(** The background a walk would sample if it climbed past every colour
    that denotes full transparency: the first colour along the element
    ancestors that does not, and the colour read last if there is
    none. *)
Definition backgroundPastTransparency (n : Node) : string :=
  let read := backgroundOf <$> elementAncestors n in
  default (default "" (last read))
    (find (λ c, negb (denotesFullTransparency c)) read).

(** ** Sample data *)

Definition redPalette : catalog := [ mkEntry "red" "#ff0000" ].

Definition gradientBlock : BlockType :=
  mkBlockType
    {[ COLOR_SUPPORT_KEY := VObject {[ "gradients" := VBool true ]} ]} ∅.

Definition colorOnlyBlock : BlockType :=
  mkBlockType {[ COLOR_SUPPORT_KEY := VBool true ]} ∅.

Definition plainBlock : BlockType := mkBlockType ∅ ∅.

Definition styledParagraph : object :=
  {[ "style" :=
       VObject (<[ "typography" := VObject {[ "lineHeight" := VString "1.5" ]} ]>
                  {[ "color" := VObject {[ "text" := VString "#222" ]} ]}) ]}.

(** Class-name helpers for the examples: the slug between a prefix and
    the context, nothing for an empty slug. *)
Definition sampleColorClassName (context : string) (slug : JSValue) : JSValue :=
  match slug with
  | VString s => if truthy slug then VString ("has-" +:+ s +:+ "-" +:+ context)
                 else VUndefined
  | _ => VUndefined
  end.

Definition sampleGradientClass (slug : JSValue) : JSValue :=
  match slug with
  | VString s => if truthy slug then VString ("has-" +:+ s +:+ "-gradient-background")
                 else VUndefined
  | _ => VUndefined
  end.

(** A page: the document, its root element with a white background, and
    inside it a wrapper and a block that are both transparent. *)
Definition documentNode : Node :=
  mkNode DOCUMENT_NODE (mkStyle "" "") None.

Definition whitePage : Node :=
  mkNode ELEMENT_NODE (mkStyle "rgb(0, 0, 0)" "rgb(255, 255, 255)")
    (Some documentNode).

Definition clearBlock : Node :=
  mkNode ELEMENT_NODE (mkStyle "rgb(40, 48, 61)" TRANSPARENT)
    (Some (mkNode ELEMENT_NODE (mkStyle "rgb(0, 0, 0)" TRANSPARENT)
             (Some whitePage))).

(** The same block on a page whose root element is transparent too. *)
Definition clearPageBlock : Node :=
  mkNode ELEMENT_NODE (mkStyle "rgb(40, 48, 61)" TRANSPARENT)
    (Some (mkNode ELEMENT_NODE (mkStyle "rgb(0, 0, 0)" TRANSPARENT)
             (Some documentNode))).

(** ** addEditProps *)

(** Block settings as [addEditProps] sees them: the block type and the
    function [getEditWrapperProps], which a block may or may not
    define. *)
Record BlockSettings := mkBlockSettings {
  settingsType : BlockType;
  getEditWrapperProps : option (object → object)
}.

Section EditProps.

Variable getColorClassName : string → JSValue → JSValue.
Variable __experimentalGetGradientClass : JSValue → JSValue.

Definition addEditProps (settings : BlockSettings) : BlockSettings :=
  if negb (hasColorSupport (settingsType settings)) then settings
  else
    let existingGetEditWrapperProps := getEditWrapperProps settings in
    mkBlockSettings (settingsType settings)
      (Some (λ attributes,
         let props :=
           match existingGetEditWrapperProps with
           | Some existing => existing attributes
           | None => ∅
           end in
         addSaveProps getColorClassName __experimentalGetGradientClass
           props (settingsType settings) attributes)).

(** The wrapper props of a block in the editor, [{}] for a block that
    defines no [getEditWrapperProps]. *)
Definition editWrapperProps (settings : BlockSettings) (attributes : object)
  : object :=
  match getEditWrapperProps settings with
  | Some wrapper => wrapper attributes
  | None => ∅
  end.

(** The classes the object literal passed to [classnames] contributes:
    those of its keys whose condition holds. *)
Definition conditionalClasses (props : object) (blockType : BlockType)
    (attributes : object) : list string :=
  match saveClassArgs getColorClassName __experimentalGetGradientClass
          props blockType attributes !! 3%nat with
  | Some arg => classTokens arg
  | None => []
  end.

End EditProps.

(** ** Cleaned styles, field by field *)

(** The number of objects nested in a value. *)
Fixpoint valueSize (v : JSValue) : nat :=
  match v with
  | VObject fields => S (map_fold (λ _ x acc, valueSize x + acc) 0 fields)
  | _ => 0
  end.

(** The properties of an object once each is cleaned and those left
    [undefined] are dropped. *)
Definition cleanFields (fields : object) : object :=
  omap (λ x, keepDefined (cleanEmptyObject x)) fields.

(** An object without properties collapses to [undefined]. *)
Definition collapse (fields : object) : JSValue :=
  if decide (fields = ∅) then VUndefined else VObject fields.

(** Writing a plain value under a key of cleaned properties: the key
    is dropped when the value is [undefined]. *)
Definition putLeaf (k : string) (x : JSValue) (fields : object) : object :=
  match keepDefined x with
  | Some w => <[k := w]> fields
  | None => delete k fields
  end.

(** Writing cleaned properties as an object under a key: the key is
    dropped when there are none. *)
Definition putObject (k : string) (inner fields : object) : object :=
  if decide (inner = ∅) then delete k fields else <[k := VObject inner]> fields.

(** The cleaned properties of the style held by some attributes, and of
    its colour object. *)
Definition styleFields (current : object) : object :=
  cleanFields (spread (getAttr current "style")).

Definition colorFields (current : object) : object :=
  cleanFields (spread (getProp (getAttr current "style") "color")).

(** The nodes found by a series of lookups, oldest first. *)
Definition foundNodes (lookups : list (option Node)) : list Node :=
  omap id lookups.

(** What the effect detects at a node. *)
Definition sampleOf (n : Node) : Detected :=
  mkDetected (Some (firstOpaque n)) (Some (colorOf n)).

(** ** More sample data *)

(** A block on the white page whose own background is a red of alpha
    zero. *)
Definition tintedClearBlock : Node :=
  mkNode ELEMENT_NODE (mkStyle "rgb(40, 48, 61)" "rgba(255, 0, 0, 0)")
    (Some whitePage).

Definition twoGradients : catalog :=
  [ mkEntry "midnight" "linear-gradient(135deg, #020381, #2874fc)";
    mkEntry "blush" "linear-gradient(135deg, #ffceec, #9896f0)" ].

Definition quoteSettings : BlockSettings :=
  mkBlockSettings gradientBlock
    (Some (λ attributes,
       <[ "data-align" := getAttr attributes "align" ]>
         {[ "className" := VString "wp-block-quote" ]})).

Definition articleAttributes : object :=
  <[ "content" := VString "Hello" ]>
    (<[ "align" := VString "wide" ]>
       {[ "style" := VObject {[ "color" :=
                       VObject {[ "text" := VString "#222" ]} ]} ]}).

Definition headingSettings : BlockType :=
  mkBlockType
    {[ COLOR_SUPPORT_KEY := VObject {[ "gradients" := VBool true ]} ]}
    (<[ "textColor" := VObject (<[ "default" := VString "primary" ]>
                                  {[ "type" := VString "string" ]}) ]>
       {[ "level" := VObject {[ "type" := VString "number" ]} ]}).

(** The changes of a batch that are the last one made to their
    channel, in the order they were made. *)
Fixpoint lastChanges (changes : list (Channel * option string))
  : list (Channel * option string) :=
  match changes with
  | [] => []
  | c :: rest =>
      if decide (c.1 ∈ rest.*1) then lastChanges rest
      else c :: lastChanges rest
  end.

(** ** The first-time contributor label *)

(** How a call that may throw, or a promise, ends. *)
Inductive Settled (A : Type) :=
| Fulfilled (a : A)
| Rejected.

Arguments Fulfilled {A} a.
Arguments Rejected {A}.

(** The parts of a push event the script reads. *)
Record PushCommit := mkPushCommit {
  commitMessage : string;
  authorUsername : string
}.

Record PushPayload := mkPushPayload {
  ref : string;
  commits : list PushCommit;
  repositoryName : string;
  repositoryOwnerLogin : string
}.

(** The requests the script sends. *)
Inductive Request :=
| SearchCommits (q : string)
| AddLabels (owner repo : string) (issue_number : nat) (labels : list string)
| ProfileLookup (url : string)
| CreateComment (owner repo : string) (issue_number : nat) (body : string).

(** How the outside answers each request: [octokit.search.commits]
    with [data.total_count], [octokit.issues.addLabels], [got] with
    [response.body.slug], [octokit.issues.createComment]. *)
Record Services := mkServices {
  searchCommits : string → Settled nat;
  addLabels : string → string → nat → list string → Settled unit;
  got : string → Settled JSValue;
  createComment : string → string → nat → string → Settled unit
}.

Definition BASE_PROFILE_LOOKUP_API_URL : string :=
  "https://profiles.wordpress.org/wp-json/wporg-github/v1/lookup/".

Definition quoteMark : string := String (Ascii.ascii_of_nat 34) EmptyString.
Definition newline : string := String (Ascii.ascii_of_nat 10) EmptyString.

Definition ACCOUNT_LINK_PROMPT : string :=
  "Congratulations on your first merged pull request! We would like to "
  +:+ "give you credit for your contribution in the next WordPress release, but "
  +:+ "we were unable to find a WordPress.org profile associated with your "
  +:+ "GitHub account. At your convenience, please visit the following URL and "
  +:+ "click " +:+ quoteMark +:+ "link your GitHub account" +:+ quoteMark
  +:+ " under " +:+ quoteMark +:+ "GitHub Username" +:+ quoteMark
  +:+ " to initiate "
  +:+ "the process to link your accounts:" +:+ newline +:+ newline
  +:+ "https://profiles.wordpress.org/me/profile/edit/" +:+ newline +:+ newline
  +:+ "If you do not have a WordPress.org account, you can create one at the "
  +:+ "following page:" +:+ newline +:+ newline
  +:+ "https://login.wordpress.org/register".

Definition FIRST_TIME_LABELS : list string := [ "First-time Contributor" ].

Section FirstTimeContributor.

(** [getAssociatedPullRequest] lives in [./get-associated-pull-request];
    it is given [payload.commits[ 0 ]], which is [undefined] for a push
    without commits, and yields a pull request number or nothing, or
    throws. *)
Variable getAssociatedPullRequest : option PushCommit → Settled (option nat).

(** Truthiness of a number or [null]. *)
Definition truthyNumber (n : option nat) : bool :=
  match n with Some (S _) => true | _ => false end.

(** [addFirstTimeContributorLabel( payload, octokit )]: the requests it
    sent, in order, and how the promise it returns settles.  The calls
    to [debug] are left out. *)
Definition addFirstTimeContributorLabel (payload : PushPayload)
    (services : Services) : list Request * Settled unit :=
  if negb (String.eqb (ref payload) "refs/heads/master") then ([], Fulfilled tt)
  else
    let commit := head (commits payload) in
    match getAssociatedPullRequest commit with
    | Rejected => ([], Rejected)
    | Fulfilled pullRequest =>
        if negb (truthyNumber pullRequest) then ([], Fulfilled tt)
        else
          let repo := repositoryName payload in
          let owner := repositoryOwnerLogin payload in
          match commit with
          | None => ([], Rejected)
          | Some c =>
              let author := authorUsername c in
              let issue := default 0 pullRequest in
              let search :=
                SearchCommits
                  ("repo:" +:+ owner +:+ "/" +:+ repo +:+ "+author:" +:+ author) in
              match searchCommits services
                      ("repo:" +:+ owner +:+ "/" +:+ repo +:+ "+author:" +:+ author)
              with
              | Rejected => ([search], Rejected)
              | Fulfilled totalCount =>
                  if negb (Nat.eqb totalCount 0) then ([search], Fulfilled tt)
                  else
                    let label := AddLabels owner repo issue FIRST_TIME_LABELS in
                    match addLabels services owner repo issue FIRST_TIME_LABELS with
                    | Rejected => ([search; label], Rejected)
                    | Fulfilled _ =>
                        let lookup :=
                          ProfileLookup (BASE_PROFILE_LOOKUP_API_URL +:+ author) in
                        match got services (BASE_PROFILE_LOOKUP_API_URL +:+ author)
                        with
                        | Rejected => ([search; label; lookup], Fulfilled tt)
                        | Fulfilled dotOrgUsername =>
                            if truthy dotOrgUsername
                            then ([search; label; lookup], Fulfilled tt)
                            else
                              let comment :=
                                CreateComment owner repo issue ACCOUNT_LINK_PROMPT in
                              match createComment services owner repo issue
                                      ACCOUNT_LINK_PROMPT with
                              | Rejected =>
                                  ([search; label; lookup; comment], Rejected)
                              | Fulfilled _ =>
                                  ([search; label; lookup; comment], Fulfilled tt)
                              end
                        end
                    end
              end
          end
    end.

(** The search query and the profile address built for a commit. *)
Definition searchQuery (payload : PushPayload) (c : PushCommit) : string :=
  "repo:" +:+ repositoryOwnerLogin payload +:+ "/" +:+ repositoryName payload
  +:+ "+author:" +:+ authorUsername c.

Definition profileUrl (c : PushCommit) : string :=
  BASE_PROFILE_LOOKUP_API_URL +:+ authorUsername c.

(** The push is to master, its first commit [c] belongs to pull request
    [issue], and the search finds no commit by its author. *)
Definition firstTimeMerge (payload : PushPayload) (services : Services)
    (c : PushCommit) (issue : nat) : Prop :=
  ref payload = "refs/heads/master"
  ∧ head (commits payload) = Some c
  ∧ getAssociatedPullRequest (Some c) = Fulfilled (Some issue)
  ∧ issue ≠ 0
  ∧ searchCommits services (searchQuery payload c) = Fulfilled 0.

End FirstTimeContributor.

Definition isLabel (r : Request) : bool :=
  match r with AddLabels _ _ _ _ => true | _ => false end.

Definition isComment (r : Request) : bool :=
  match r with CreateComment _ _ _ _ => true | _ => false end.

(** Sample data: a merge commit of pull request 21 by a newcomer, and
    services that know no earlier commit and no profile. *)
Definition mergeOfPull21 : PushPayload :=
  mkPushPayload "refs/heads/master"
    [ mkPushCommit "Fix typo (#21)" "newcomer" ] "gutenberg" "WordPress".

Definition pullOfSample (c : option PushCommit) : Settled (option nat) :=
  match c with
  | Some _ => Fulfilled (Some 21)
  | None => Rejected
  end.

Definition quietServices (profile : Settled JSValue) : Services :=
  mkServices (λ _, Fulfilled 0) (λ _ _ _ _, Fulfilled tt) (λ _, profile)
    (λ _ _ _ _, Fulfilled tt).

(** * Properties *)

(** ** Cleaning *)

Lemma cleanEmptyObject_object fields :
  cleanEmptyObject (VObject fields) =
    let cleaned := omap (λ x, keepDefined (cleanEmptyObject x)) fields in
    if decide (cleaned = ∅) then VUndefined else VObject cleaned.
Proof. reflexivity. Qed.

(** Reading a property commutes with cleaning. *)
Lemma getProp_cleanEmptyObject v k :
  getProp (cleanEmptyObject v) k = cleanEmptyObject (getProp v k).
Proof.
  destruct v as [| b | s | fields]; try reflexivity.
  rewrite cleanEmptyObject_object. cbv zeta.
  assert (Hk : default VUndefined
                 (omap (λ x, keepDefined (cleanEmptyObject x)) fields !! k)
               = cleanEmptyObject (getProp (VObject fields) k)).
  { rewrite lookup_omap. simpl. destruct (fields !! k) as [x|]; simpl; [|done].
    destruct (cleanEmptyObject x); reflexivity. }
  destruct (decide _) as [Hempty | Hne].
  - rewrite <- Hk, Hempty, lookup_empty. reflexivity.
  - exact Hk.
Qed.

Lemma cleanEmptyObject_ofOption v : cleanEmptyObject (ofOption v) = ofOption v.
Proof. destruct v; reflexivity. Qed.

(** Cleaning never leaves an empty object behind. *)
Lemma cleanEmptyObject_not_empty v : cleanEmptyObject v ≠ VObject ∅.
Proof.
  destruct v as [| b | s | fields]; try discriminate.
  rewrite cleanEmptyObject_object. cbv zeta.
  destruct (decide _) as [|Hne]; [discriminate|].
  intros [= Heq]. exact (Hne Heq).
Qed.

Lemma cleanEmptyObject_not_string v s :
  (∀ s', v ≠ VString s') → cleanEmptyObject v ≠ VString s.
Proof.
  intros Hv. destruct v as [| b | s' | fields]; try discriminate.
  - exfalso. exact (Hv s' eq_refl).
  - rewrite cleanEmptyObject_object. cbv zeta.
    destruct (decide _); discriminate.
Qed.

(** An object collapses exactly when all its properties are empty. *)
Lemma cleanEmptyObject_collapse fields :
  cleanEmptyObject (VObject fields) = VUndefined ↔ allEmpty fields.
Proof.
  rewrite cleanEmptyObject_object. cbv zeta. unfold allEmpty, getAttr.
  split.
  - destruct (decide _) as [Hempty|]; [|discriminate]. intros _ k.
    assert (Hk := lookup_omap (λ x, keepDefined (cleanEmptyObject x)) fields k).
    rewrite Hempty, lookup_empty in Hk.
    destruct (fields !! k) as [x|]; simpl in *; [|done].
    destruct (cleanEmptyObject x); simpl in Hk; congruence.
  - intros Hall. destruct (decide _) as [|Hne]; [done|].
    exfalso. apply Hne. apply map_eq. intros k.
    rewrite lookup_omap, lookup_empty. specialize (Hall k).
    destruct (fields !! k) as [x|]; simpl in *; [|done].
    by rewrite Hall.
Qed.

(** ** Reading the style a handler builds *)

Lemma getAttr_spread v k :
  (∀ s, v ≠ VString s) → getAttr (spread v) k = getProp v k.
Proof.
  intros Hv. destruct v as [| b | s | fields]; try reflexivity.
  exfalso. exact (Hv s eq_refl).
Qed.

Lemma color_withOverride current key x :
  getProp (cleanEmptyObject (withOverride current key x)) "color"
  = cleanEmptyObject
      (VObject (<[key := x]>
                  (spread (getProp (getAttr current "style") "color")))).
Proof.
  rewrite getProp_cleanEmptyObject. f_equal.
  unfold withOverride. simpl. by rewrite lookup_insert_eq.
Qed.

Lemma override_withOverride current key x k :
  getProp (getProp (cleanEmptyObject (withOverride current key x)) "color") k
  = cleanEmptyObject
      (if decide (k = key) then x
       else getAttr (spread (getProp (getAttr current "style") "color")) k).
Proof.
  rewrite color_withOverride, getProp_cleanEmptyObject. f_equal.
  simpl. destruct (decide (k = key)) as [->|Hne].
  - by rewrite lookup_insert_eq.
  - by rewrite lookup_insert_ne.
Qed.

(** ** The handlers, channel by channel *)

Lemma getGradientSlugByValue_slugOf gradients value :
  getGradientSlugByValue gradients value = slugOf (resolveByValue gradients value).
Proof. unfold getGradientSlugByValue, slugOf. by destruct (resolveByValue _ _). Qed.

(** Both handlers build the same shape of update. *)
Lemma channelAttributes_eq colors gradients ch value current :
  channelAttributes colors gradients ch value current
  = let found := slugOf (resolveByValue (channelCatalog colors gradients ch) value) in
    <[slugAttribute ch := if truthy found then found else VUndefined]>
      {[ "style" :=
           cleanEmptyObject
             (withOverride current (overrideKey ch)
                (writtenOverride (channelCatalog colors gradients ch) value)) ]}.
Proof.
  destruct ch; simpl; try reflexivity.
  unfold gradientAttributes, writtenOverride.
  rewrite getGradientSlugByValue_slugOf.
  by destruct (truthy (slugOf (resolveByValue gradients value))).
Qed.

Lemma changeChannel_localAttributes colors gradients ch value st :
  localAttributes (changeChannel colors gradients ch value st)
  = channelAttributes colors gradients ch value (localAttributes st)
    ∪ localAttributes st.
Proof. by destruct ch. Qed.

Lemma changeChannel_committed colors gradients ch value st :
  committed (changeChannel colors gradients ch value st)
  = (committed st
     ++ [channelAttributes colors gradients ch value (localAttributes st)])%list.
Proof. by destruct ch. Qed.

Lemma slugAttribute_not_style ch : slugAttribute ch ≠ "style".
Proof. by destruct ch. Qed.

Lemma slugAttribute_inj ch ch' : slugAttribute ch = slugAttribute ch' → ch = ch'.
Proof. by destruct ch, ch'. Qed.

Lemma overrideKey_inj ch ch' : overrideKey ch = overrideKey ch' → ch = ch'.
Proof. by destruct ch, ch'. Qed.

Lemma changeChannel_style colors gradients ch value st :
  getAttr (localAttributes (changeChannel colors gradients ch value st)) "style"
  = cleanEmptyObject
      (withOverride (localAttributes st) (overrideKey ch)
         (writtenOverride (channelCatalog colors gradients ch) value)).
Proof.
  rewrite changeChannel_localAttributes, channelAttributes_eq. cbv zeta.
  unfold getAttr.
  erewrite lookup_union_Some_l; [reflexivity|].
  rewrite lookup_insert_ne by apply slugAttribute_not_style.
  by rewrite lookup_singleton_eq.
Qed.

Lemma changeChannel_slug colors gradients ch value st :
  channelSlug (localAttributes (changeChannel colors gradients ch value st)) ch
  = let found := slugOf (resolveByValue (channelCatalog colors gradients ch) value) in
    if truthy found then found else VUndefined.
Proof.
  rewrite changeChannel_localAttributes, channelAttributes_eq. cbv zeta.
  unfold channelSlug, getAttr.
  erewrite lookup_union_Some_l; [reflexivity|].
  by rewrite lookup_insert_eq.
Qed.

Lemma writtenOverride_clean c value :
  cleanEmptyObject (writtenOverride c value) = writtenOverride c value.
Proof.
  unfold writtenOverride. destruct (truthy _); [done|].
  apply cleanEmptyObject_ofOption.
Qed.

Lemma changeChannel_override colors gradients ch value st :
  channelOverride (localAttributes (changeChannel colors gradients ch value st)) ch
  = writtenOverride (channelCatalog colors gradients ch) value.
Proof.
  unfold channelOverride. rewrite changeChannel_style, override_withOverride.
  rewrite decide_True by done. apply writtenOverride_clean.
Qed.

(** A change leaves the slug of every other channel alone. *)
Lemma changeChannel_slug_other colors gradients ch ch' value st :
  ch' ≠ ch →
  channelSlug (localAttributes (changeChannel colors gradients ch value st)) ch'
  = channelSlug (localAttributes st) ch'.
Proof.
  intros Hne.
  rewrite changeChannel_localAttributes, channelAttributes_eq. cbv zeta.
  unfold channelSlug, getAttr. f_equal.
  apply lookup_union_r.
  rewrite lookup_insert_ne
    by (intros H; apply Hne; symmetry; by apply slugAttribute_inj).
  rewrite lookup_singleton_ne; [done|].
  intros H. symmetry in H. by apply slugAttribute_not_style in H.
Qed.

(** ... and cleans, but does not replace, their raw overrides. *)
Lemma changeChannel_override_other colors gradients ch ch' value st :
  ch' ≠ ch →
  channelOverride (localAttributes (changeChannel colors gradients ch value st)) ch'
  = cleanEmptyObject
      (getAttr (spread (getProp (getAttr (localAttributes st) "style") "color"))
         (overrideKey ch')).
Proof.
  intros Hne. unfold channelOverride.
  rewrite changeChannel_style, override_withOverride.
  rewrite decide_False; [done|].
  intros H. by apply overrideKey_inj in H.
Qed.

Lemma slugOf_wf c value e :
  wfCatalog c → resolveByValue c value = Some e → truthy (slugOf (Some e)) = true.
Proof.
  intros Hwf Hfind. destruct value as [s|]; [|discriminate].
  simpl in Hfind. apply find_some in Hfind as [Hin _].
  unfold wfCatalog in Hwf. rewrite Forall_forall in Hwf.
  specialize (Hwf e). simpl.
  destruct (String.eqb_spec (slug e) ""); [|done].
  exfalso. apply Hwf; [|done]. by apply list_elem_of_In.
Qed.

(** ** Priority of the slug over the raw override *)

(** C1. After the change handler of a channel has run (onChangeColor
    for text and background, onChangeGradient for the gradient), the
    snapshot it leaves in the shadow has at most one of the channel's
    slug and the channel's raw override set: one of the two is
    undefined.  When the new value matches an entry of the channel's
    catalog (entries carry a slug), the slug of that entry is set and
    the raw override is cleared; when no entry matches, the slug is
    cleared and the raw override holds the value. *)
Theorem priority_after_change colors gradients ch value st :
  let attrs' := localAttributes (changeChannel colors gradients ch value st) in
  let c := channelCatalog colors gradients ch in
  (channelSlug attrs' ch = VUndefined ∨ channelOverride attrs' ch = VUndefined)
  ∧ (wfCatalog c → ∀ e, resolveByValue c value = Some e →
       channelSlug attrs' ch = VString (slug e)
       ∧ channelOverride attrs' ch = VUndefined)
  ∧ (resolveByValue c value = None →
       channelSlug attrs' ch = VUndefined
       ∧ channelOverride attrs' ch = ofOption value).
Proof.
  cbv zeta. rewrite changeChannel_slug, changeChannel_override. cbv zeta.
  unfold writtenOverride. split; [|split].
  - destruct (truthy _); [by right | by left].
  - intros Hwf e He. rewrite He. by rewrite (slugOf_wf _ _ _ Hwf He).
  - intros Hnone. by rewrite Hnone.
Qed.

Lemma priority_after_change_witness :
  wfCatalog redPalette
  ∧ resolveByValue redPalette (Some "#ff0000") = Some (mkEntry "red" "#ff0000")
  ∧ channelSlug
      (localAttributes
         (changeChannel redPalette [] Text (Some "#ff0000")
            (mount {[ "style" := VObject {[ "color" :=
                        VObject {[ "text" := VString "#222" ]} ]} ]})))
      Text = VString "red".
Proof.
  assert (Hwf : wfCatalog redPalette).
  { apply Forall_cons. split; [discriminate | apply Forall_nil_2]. }
  split; [exact Hwf | split; [reflexivity|]].
  exact (proj1 (proj1 (proj2
    (priority_after_change redPalette [] Text (Some "#ff0000")
       (mount {[ "style" := VObject {[ "color" :=
                   VObject {[ "text" := VString "#222" ]} ]} ]})))
    Hwf (mkEntry "red" "#ff0000") eq_refl)).
Defined.

(** A value equal to that of an entry whose slug is the empty string is
    kept as a raw override, as a custom value is. *)
Lemma change_to_unslugged_entry colors gradients ch value st e :
  resolveByValue (channelCatalog colors gradients ch) value = Some e →
  slug e = "" →
  let attrs' := localAttributes (changeChannel colors gradients ch value st) in
  channelSlug attrs' ch = VUndefined ∧ channelOverride attrs' ch = ofOption value.
Proof.
  intros He Hslug. cbv zeta.
  rewrite changeChannel_slug, changeChannel_override. cbv zeta.
  unfold writtenOverride. rewrite He. simpl. by rewrite Hslug.
Qed.

(** A gradient value without an entry in the catalog is stored as it
    is. *)
Lemma gradient_override_unmatched gradients value st :
  resolveByValue gradients value = None →
  channelOverride (localAttributes (onChangeGradient gradients value st)) Gradient
  = ofOption value.
Proof.
  intros Hnone.
  change (onChangeGradient gradients value st)
    with (changeChannel [] gradients Gradient value st).
  rewrite changeChannel_override. unfold writtenOverride.
  simpl channelCatalog. by rewrite Hnone.
Qed.

(** C7. A gradient change whose value has no entry in the gradient
    catalog, or whose value is undefined, clears the gradient slug and
    leaves the given value in style.color.gradient, which clears that
    field when the value is undefined. *)
Theorem custom_gradient_change gradients value st :
  resolveByValue gradients value = None ∨ value = None →
  let attrs' := localAttributes (onChangeGradient gradients value st) in
  channelSlug attrs' Gradient = VUndefined
  ∧ channelOverride attrs' Gradient = ofOption value
  ∧ (value = None → channelOverride attrs' Gradient = VUndefined)
  ∧ getAttr (gradientAttributes gradients value (localAttributes st)) "gradient"
    = VUndefined.
Proof.
  intros Hcustom.
  assert (Hnone : resolveByValue gradients value = None).
  { destruct Hcustom as [H | ->]; [exact H | reflexivity]. }
  cbv zeta.
  change (onChangeGradient gradients value st)
    with (changeChannel [] gradients Gradient value st).
  rewrite changeChannel_slug, changeChannel_override. cbv zeta.
  unfold writtenOverride. simpl channelCatalog. rewrite Hnone. simpl.
  repeat split.
  - by intros ->.
  - unfold gradientAttributes. rewrite getGradientSlugByValue_slugOf, Hnone.
    simpl. unfold getAttr. by rewrite lookup_insert_eq.
Qed.

Lemma custom_gradient_change_witness :
  channelOverride
    (localAttributes
       (onChangeGradient [] (Some "linear-gradient(135deg, #000, #fff)")
          (mount {[ "gradient" := VString "midnight" ]})))
    Gradient
  = VString "linear-gradient(135deg, #000, #fff)".
Proof.
  exact (proj1 (proj2
    (custom_gradient_change [] (Some "linear-gradient(135deg, #000, #fff)")
       (mount {[ "gradient" := VString "midnight" ]})
       (or_introl eq_refl)))).
Defined.

(** ** Minimality of the style *)

Lemma updatedColor_withOverride colors gradients ch value current :
  withOverride current (overrideKey ch)
    (writtenOverride (channelCatalog colors gradients ch) value)
  = VObject (<["color" := VObject (updatedColor colors gradients ch value current)]>
               (spread (getAttr current "style"))).
Proof. reflexivity. Qed.

Lemma allEmpty_insert_color (colorObject : JSValue) (fields : object) :
  cleanEmptyObject colorObject = VUndefined →
  allEmpty (<["color" := colorObject]> fields) ↔ allEmpty (delete "color" fields).
Proof.
  intros Hcolor. unfold allEmpty, getAttr. split; intros Hall k.
  - destruct (decide (k = "color")) as [->|Hne].
    + by rewrite lookup_delete_eq.
    + rewrite lookup_delete_ne by done.
      specialize (Hall k). by rewrite lookup_insert_ne in Hall.
  - destruct (decide (k = "color")) as [->|Hne].
    + by rewrite lookup_insert_eq.
    + rewrite lookup_insert_ne by done.
      specialize (Hall k). by rewrite lookup_delete_ne in Hall.
Qed.

(** C5, as the code has it.  After a channel change the style is never
    an empty object and never holds an empty colour object, and its
    entries other than the colour are those it had, cleaned.  When the
    change empties the colour object, the style keeps no colour entry,
    and the style as a whole is absent exactly when it holds no other
    entry that is not empty. *)
Theorem emptied_color_collapses colors gradients ch value st :
  let current := localAttributes st in
  let style' :=
    getAttr (localAttributes (changeChannel colors gradients ch value st)) "style" in
  style' ≠ VObject ∅
  ∧ getProp style' "color" ≠ VObject ∅
  ∧ (∀ k, k ≠ "color" →
       getProp style' k
       = cleanEmptyObject (getAttr (spread (getAttr current "style")) k))
  ∧ (allEmpty (updatedColor colors gradients ch value current) →
       getProp style' "color" = VUndefined
       ∧ (style' = VUndefined
          ↔ allEmpty (delete "color" (spread (getAttr current "style"))))).
Proof.
  cbv zeta. rewrite changeChannel_style. split; [|split; [|split]].
  - apply cleanEmptyObject_not_empty.
  - rewrite getProp_cleanEmptyObject. apply cleanEmptyObject_not_empty.
  - intros k Hk. rewrite getProp_cleanEmptyObject. f_equal.
    unfold withOverride, getAttr. simpl. by rewrite lookup_insert_ne.
  - intros Hempty. apply cleanEmptyObject_collapse in Hempty.
    rewrite color_withOverride. split; [exact Hempty|].
    rewrite updatedColor_withOverride, cleanEmptyObject_collapse.
    by apply allEmpty_insert_color.
Qed.

Lemma emptied_color_collapses_witness :
  getAttr
    (localAttributes
       (changeChannel redPalette [] Text (Some "#ff0000")
          (mount {[ "style" := VObject {[ "color" :=
                      VObject {[ "text" := VString "#222" ]} ]} ]})))
    "style"
  = VUndefined.
Proof.
  pose proof (emptied_color_collapses redPalette [] Text (Some "#ff0000")
    (mount {[ "style" := VObject {[ "color" :=
                VObject {[ "text" := VString "#222" ]} ]} ]})) as H.
  cbv zeta in H. destruct H as (_ & _ & _ & H).
  assert (Hcolor : allEmpty (updatedColor redPalette [] Text (Some "#ff0000")
            (localAttributes (mount {[ "style" := VObject {[ "color" :=
                VObject {[ "text" := VString "#222" ]} ]} ]})))).
  { apply cleanEmptyObject_collapse. vm_compute. reflexivity. }
  destruct (H Hcolor) as [_ [_ Habsent]]. apply Habsent.
  apply cleanEmptyObject_collapse. vm_compute. reflexivity.
Defined.

(** C5 as stated fails: a style that also holds a line height is kept
    when the colour object is emptied. *)
Lemma emptied_color_keeps_other_styles :
  ¬ (∀ colors gradients ch value st,
       allEmpty (updatedColor colors gradients ch value (localAttributes st)) →
       getAttr (localAttributes (changeChannel colors gradients ch value st)) "style"
       = VUndefined).
Proof.
  intros Hclaim.
  specialize (Hclaim redPalette [] Text (Some "#ff0000") (mount styledParagraph)).
  assert (Hcolor : allEmpty (updatedColor redPalette [] Text (Some "#ff0000")
            (localAttributes (mount styledParagraph)))).
  { apply cleanEmptyObject_collapse. vm_compute. reflexivity. }
  specialize (Hclaim Hcolor). vm_compute in Hclaim. discriminate Hclaim.
Qed.

(** ** Contrast sampling *)

(** C9, as the code has it.  When the node lookup returns nothing the
    effect raises no error and changes nothing: the detected colours
    stay what they were.  They are both undefined as long as no render
    has found a node, as right after mounting. *)
Theorem absent_node_keeps_detected :
  (∀ st, colorsDetectionEffect None st = Some st)
  ∧ (∀ lookups, detectedAfter (lookups ++ [None]) = detectedAfter lookups)
  ∧ (∀ n, detectedAfter (replicate n None) = Some (mkDetected None None)).
Proof.
  split; [done | split].
  - intros lookups. unfold detectedAfter. rewrite foldl_snoc.
    by destruct (foldl _ _ lookups).
  - intros n. unfold detectedAfter.
    induction n as [|n IH]; [reflexivity|]. exact IH.
Qed.

(** C9 as stated fails: colours detected at an earlier render are still
    there after a render at which the node is gone. *)
Lemma absent_node_after_sample :
  ¬ (∀ lookups,
       detectedAfter (lookups ++ [None]) = Some (mkDetected None None)).
Proof.
  intros Hclaim. specialize (Hclaim [Some clearBlock]). discriminate Hclaim.
Qed.

Example absent_node_after_sample_value :
  detectedAfter [Some clearBlock; None]
  = Some (mkDetected (Some "rgb(255, 255, 255)") (Some "rgb(40, 48, 61)")).
Proof. reflexivity. Qed.

Lemma ancestorBackground_step t computed parent read :
  ancestorBackground (mkNode t computed parent) read
  = if isTransparent read then
      match parent with
      | Some p =>
          if Nat.eqb (nodeType p) ELEMENT_NODE
          then ancestorBackground p (backgroundOf p)
          else Some read
      | None => Some read
      end
    else Some read.
Proof.
  simpl. unfold isTransparent. destruct (String.eqb read TRANSPARENT); [|done].
  destruct parent as [[t' [c' b'] parent']|]; [|done]. simpl.
  by destruct (Nat.eqb t' ELEMENT_NODE).
Qed.

Lemma isTransparent_eq c : isTransparent c = true → c = TRANSPARENT.
Proof. unfold isTransparent. by intros H%String.eqb_eq. Qed.

(** The loop never reads the style of a node that is not an element: it
    always ends with a colour, the first one along the element
    ancestors that is not the transparent one, or the transparent one
    if there is none. *)
Lemma ancestorBackground_firstOpaque n :
  ancestorBackground n (backgroundOf n) = Some (firstOpaque n).
Proof.
  unfold firstOpaque.
  induction n as [t computed | t computed p IH] using Node_parent_ind;
    rewrite ancestorBackground_step; simpl;
    destruct (isTransparent (backgroundColor computed)) eqn:Hb; simpl;
    try reflexivity.
  - f_equal. by apply isTransparent_eq.
  - destruct (Nat.eqb (nodeType p) ELEMENT_NODE); simpl.
    + exact IH.
    + f_equal. by apply isTransparent_eq.
Qed.

Lemma getComputedStyle_element n :
  nodeType n = ELEMENT_NODE →
  getComputedStyle n = Some (mkStyle (colorOf n) (backgroundOf n)).
Proof. destruct n as [t [c b] parent]. simpl. by intros ->. Qed.

(** C3, as the code has it.  Sampling from a root element never fails
    and always yields a background colour.  The walk goes on from the
    parent element exactly while the colour read is the string
    rgba(0, 0, 0, 0): the colour sampled is the first one along the
    element ancestors that is not that string, and when the root and
    all its element ancestors have it, it is that string, read last at
    the topmost of them.  A root with any other colour is sampled as it
    is, also when that colour denotes full transparency in another
    form. *)
Theorem transparent_background_ascends root st :
  nodeType root = ELEMENT_NODE →
  colorsDetectionEffect (Some root) st
  = Some (mkDetected (Some (firstOpaque root)) (Some (colorOf root)))
  ∧ (∀ p, backgroundOf root = TRANSPARENT →
          parentNode root = Some p → nodeType p = ELEMENT_NODE →
          ancestorBackground root (backgroundOf root)
          = ancestorBackground p (backgroundOf p))
  ∧ (Forall (λ n, backgroundOf n = TRANSPARENT) (elementAncestors root) →
     firstOpaque root = TRANSPARENT
     ∧ backgroundOf <$> last (elementAncestors root) = Some TRANSPARENT)
  ∧ (backgroundOf root ≠ TRANSPARENT → firstOpaque root = backgroundOf root).
Proof.
  intros Hroot. split; [|split; [|split]].
  - simpl. rewrite (getComputedStyle_element _ Hroot). simpl.
    by rewrite ancestorBackground_firstOpaque.
  - destruct root as [t computed parent]. intros p Hb Hparent Hp.
    simpl in Hb, Hparent. subst parent.
    rewrite ancestorBackground_step. simpl backgroundOf. by rewrite Hb, Hp.
  - intros Hall. split.
    + unfold firstOpaque.
      induction Hall as [|n l Hn _ IH]; [reflexivity|].
      simpl. unfold isTransparent at 1. rewrite Hn. simpl. exact IH.
    + assert (Hne : elementAncestors root ≠ []) by (by destruct root).
      revert Hne. induction Hall as [|n l Hn Hl IH]; [done|].
      intros _. destruct l as [|m l'].
      * simpl. by rewrite Hn.
      * change (last (n :: m :: l')) with (last (m :: l')). by apply IH.
  - destruct root as [t computed parent]. simpl backgroundOf. intros Hother.
    unfold firstOpaque. simpl. unfold isTransparent.
    by destruct (String.eqb_spec (backgroundColor computed) TRANSPARENT).
Qed.

Lemma transparent_background_ascends_witness :
  colorsDetectionEffect (Some clearPageBlock) initialDetected
  = Some (mkDetected (Some (firstOpaque clearPageBlock)) (Some "rgb(40, 48, 61)"))
  ∧ firstOpaque clearPageBlock = TRANSPARENT.
Proof.
  pose proof (transparent_background_ascends clearPageBlock initialDetected
                eq_refl) as (Hsample & _ & Hclear & _).
  split; [exact Hsample|].
  refine (proj1 (Hclear _)). repeat constructor.
Defined.

(** C3 as stated fails: a root whose background denotes full
    transparency in another form than rgba(0, 0, 0, 0) is not climbed
    past, although its parent element has a background to show. *)
Lemma other_transparent_colour_not_ascended :
  ¬ (∀ root st,
       nodeType root = ELEMENT_NODE →
       denotesFullTransparency (backgroundOf root) = true →
       detectedBackgroundColor <$> colorsDetectionEffect (Some root) st
       = Some (Some (backgroundPastTransparency root))).
Proof.
  intros Hclaim.
  specialize (Hclaim tintedClearBlock initialDetected eq_refl).
  assert (Htransparent :
    denotesFullTransparency (backgroundOf tintedClearBlock) = true)
    by (vm_compute; reflexivity).
  specialize (Hclaim Htransparent). vm_compute in Hclaim. discriminate Hclaim.
Qed.

Example tinted_clear_block_sample :
  denotesFullTransparency "rgba(255, 0, 0, 0)" = true
  ∧ backgroundPastTransparency tintedClearBlock = "rgb(255, 255, 255)"
  ∧ colorsDetectionEffect (Some tintedClearBlock) initialDetected
    = Some (mkDetected (Some "rgba(255, 0, 0, 0)") (Some "rgb(40, 48, 61)")).
Proof. vm_compute. repeat split. Qed.

Example colours_denoting_full_transparency :
  denotesFullTransparency <$>
    [ "rgba(0, 0, 0, 0)"; "transparent"; "rgba(0,0,0,0.0)";
      "rgb(255, 255, 255)"; "rgba(0, 0, 0, 0.5)" ]
  = [ true; true; true; false; false ].
Proof. vm_compute. reflexivity. Qed.

Example white_page_behind_clear_block :
  colorsDetectionEffect (Some clearBlock) initialDetected
  = Some (mkDetected (Some "rgb(255, 255, 255)") (Some "rgb(40, 48, 61)")).
Proof. reflexivity. Qed.

Example clear_page_behind_clear_block :
  colorsDetectionEffect (Some clearPageBlock) initialDetected
  = Some (mkDetected (Some "rgba(0, 0, 0, 0)") (Some "rgb(40, 48, 61)")).
Proof. reflexivity. Qed.

(** Sampling from a node that is not an element throws. *)
Example document_is_not_sampled :
  colorsDetectionEffect (Some documentNode) initialDetected = None.
Proof. reflexivity. Qed.

(** ** The local shadow *)

Lemma step_localAttributes_ext colors gradients ev st1 st2 :
  localAttributes st1 = localAttributes st2 →
  localAttributes (step colors gradients st1 ev)
  = localAttributes (step colors gradients st2 ev).
Proof.
  intros Heq. destruct ev as [attributes | ch value]; [reflexivity|].
  simpl. rewrite !changeChannel_localAttributes. by rewrite Heq.
Qed.

Lemma run_localAttributes_ext colors gradients evs : ∀ st1 st2,
  localAttributes st1 = localAttributes st2 →
  localAttributes (run colors gradients evs st1)
  = localAttributes (run colors gradients evs st2).
Proof.
  induction evs as [|ev evs IH]; intros st1 st2 Heq; [exact Heq|].
  simpl. apply IH. by apply step_localAttributes_ext.
Qed.

Lemma run_app colors gradients evs1 evs2 st :
  run colors gradients (evs1 ++ evs2) st
  = run colors gradients evs2 (run colors gradients evs1 st).
Proof. unfold run. apply foldl_app. Qed.

(** C6. Every render by the host resets the shadow to the attributes
    the host delivers, whatever the shadow held and whatever happened
    before; what the shadow holds afterwards depends only on those
    attributes and on the changes made since that render. *)
Theorem shadow_reset_on_render colors gradients :
  (∀ attributes st, localAttributes (hostRender attributes st) = attributes)
  ∧ (∀ pre attributes st,
       localAttributes (run colors gradients (pre ++ [HostRender attributes]) st)
       = attributes)
  ∧ (∀ pre attributes post st,
       localAttributes
         (run colors gradients (pre ++ HostRender attributes :: post) st)
       = localAttributes (run colors gradients post (mount attributes))).
Proof.
  split; [reflexivity | split].
  - intros pre attributes st. by rewrite run_app.
  - intros pre attributes post st. rewrite run_app. simpl.
    by apply run_localAttributes_ext.
Qed.

Lemma run_batch_cons colors gradients ch value changes st :
  run colors gradients (batch ((ch, value) :: changes)) st
  = run colors gradients (batch changes)
      (changeChannel colors gradients ch value st).
Proof. reflexivity. Qed.

Lemma run_batch_app colors gradients changes1 changes2 st :
  run colors gradients (batch (changes1 ++ changes2)) st
  = run colors gradients (batch changes2)
      (run colors gradients (batch changes1) st).
Proof. unfold batch. rewrite map_app. apply run_app. Qed.

(** A batch commits [batchUpdates] and leaves their merge in the
    shadow. *)
Lemma run_batch_updates colors gradients changes : ∀ st,
  run colors gradients (batch changes) st
  = mkEditState
      (mergeUpdates (localAttributes st)
         (batchUpdates colors gradients changes (localAttributes st)))
      (committed st ++ batchUpdates colors gradients changes (localAttributes st)).
Proof.
  induction changes as [|[ch value] changes IH]; intros st.
  - destruct st. simpl. by rewrite app_nil_r.
  - rewrite run_batch_cons, IH.
    rewrite changeChannel_localAttributes, changeChannel_committed.
    simpl. by rewrite <- app_assoc.
Qed.

Lemma changeChannel_color_not_string colors gradients ch value st s :
  getProp (getAttr (localAttributes (changeChannel colors gradients ch value st))
             "style") "color"
  ≠ VString s.
Proof.
  rewrite changeChannel_style, color_withOverride.
  by apply cleanEmptyObject_not_string.
Qed.

(** Changes to other channels keep what a channel holds, once its raw
    override is a plain value. *)
Lemma changes_elsewhere_preserve colors gradients ch post :
  Forall (λ c : Channel * option string, c.1 ≠ ch) post →
  ∀ st,
    (∀ s, getProp (getAttr (localAttributes st) "style") "color" ≠ VString s) →
    cleanEmptyObject (channelOverride (localAttributes st) ch)
    = channelOverride (localAttributes st) ch →
    channelSlug (localAttributes (run colors gradients (batch post) st)) ch
    = channelSlug (localAttributes st) ch
    ∧ channelOverride (localAttributes (run colors gradients (batch post) st)) ch
      = channelOverride (localAttributes st) ch.
Proof.
  induction 1 as [|[ch' value] post Hne _ IH]; intros st Hcolor Hclean; [done|].
  simpl in Hne. rewrite run_batch_cons.
  assert (Hover :
    channelOverride (localAttributes (changeChannel colors gradients ch' value st)) ch
    = channelOverride (localAttributes st) ch).
  { rewrite changeChannel_override_other by done.
    rewrite getAttr_spread by exact Hcolor. exact Hclean. }
  destruct (IH (changeChannel colors gradients ch' value st)) as [Hslug Hraw].
  - intros s. apply changeChannel_color_not_string.
  - rewrite Hover. exact Hclean.
  - rewrite Hslug, Hraw, Hover.
    by rewrite changeChannel_slug_other by (intros ->; by apply Hne).
Qed.

(** C2. In a batch of channel changes made with no render in between,
    each call computes its update from the shadow left by the calls
    before it; the shadow after the batch is the starting attributes
    merged with every update committed, in order; and what the last
    change to a channel set is still there at the end of the batch. *)
Theorem batch_no_lost_updates colors gradients st pre ch value post :
  Forall (λ c : Channel * option string, c.1 ≠ ch) post →
  let before := run colors gradients (batch pre) st in
  let after := changeChannel colors gradients ch value before in
  let final := run colors gradients (batch (pre ++ (ch, value) :: post)) st in
  run colors gradients (batch (pre ++ [(ch, value)])) st = after
  ∧ committed after
    = (committed before
       ++ [channelAttributes colors gradients ch value (localAttributes before)])%list
  ∧ localAttributes after
    = channelAttributes colors gradients ch value (localAttributes before)
      ∪ localAttributes before
  ∧ localAttributes final
    = mergeUpdates (localAttributes st)
        (drop (length (committed st)) (committed final))
  ∧ channelSlug (localAttributes final) ch = channelSlug (localAttributes after) ch
  ∧ channelOverride (localAttributes final) ch
    = channelOverride (localAttributes after) ch.
Proof.
  intros Hpost. cbv zeta.
  split; [by rewrite run_batch_app | split; [apply changeChannel_committed|]].
  split; [apply changeChannel_localAttributes | split].
  - rewrite run_batch_updates. simpl. by rewrite drop_app_length.
  - rewrite run_batch_app, run_batch_cons.
    apply changes_elsewhere_preserve; [exact Hpost | |].
    + intros s. apply changeChannel_color_not_string.
    + rewrite changeChannel_override. apply writtenOverride_clean.
Qed.

Lemma batch_no_lost_updates_witness :
  channelOverride
    (localAttributes
       (run redPalette []
          (batch ([(Background, Some "#123456")]
                  ++ (Text, Some "#abcdef") :: [(Background, Some "#ff0000")]))
          (mount ∅)))
    Text
  = channelOverride
      (localAttributes
         (changeChannel redPalette [] Text (Some "#abcdef")
            (run redPalette [] (batch [(Background, Some "#123456")]) (mount ∅))))
      Text.
Proof.
  refine (proj2 (proj2 (proj2 (proj2 (proj2
    (batch_no_lost_updates redPalette [] (mount ∅)
       [(Background, Some "#123456")] Text (Some "#abcdef")
       [(Background, Some "#ff0000")] _)))))).
  apply Forall_cons. split; [discriminate | apply Forall_nil_2].
Defined.

Example two_changes_in_one_batch :
  localAttributes
    (run redPalette []
       (batch [(Text, Some "#abcdef"); (Background, Some "#ff0000")])
       (mount ∅))
  = <[ "backgroundColor" := VString "red" ]>
      (<[ "textColor" := VUndefined ]>
         {[ "style" := VObject {[ "color" :=
                         VObject {[ "text" := VString "#abcdef" ]} ]} ]}).
Proof. vm_compute. reflexivity. Qed.

(** ** The value shown by the panel *)

Lemma resolveBySlug_unknown c named :
  (∀ e, e ∈ c → VString (slug e) ≠ named) →
  resolveBySlug c named = VUndefined.
Proof.
  intros Hunknown. destruct named as [| b | name | fields]; try reflexivity.
  simpl. destruct (find _ c) as [e|] eqn:Hfind; [|reflexivity].
  apply find_some in Hfind as [Hin Heq%String.eqb_eq].
  exfalso. apply (Hunknown e); [by apply list_elem_of_In | by rewrite Heq].
Qed.

(** C8. For a block type with gradient support, the gradient shown by
    the panel is the effective value of the specification: with a slug,
    the forward lookup of that slug in the catalog, undefined when the
    catalog does not have it; without a slug, the raw override as it
    is, whatever the catalog holds. *)
Theorem gradient_value_priority blockType gradients attributes :
  hasGradientSupport blockType = true →
  let named := channelSlug attributes Gradient in
  let raw := channelOverride attributes Gradient in
  gradientValue blockType gradients attributes = effectiveValue named raw gradients
  ∧ (truthy named = true →
       gradientValue blockType gradients attributes = resolveBySlug gradients named)
  ∧ (truthy named = true →
     (∀ e, e ∈ gradients → VString (slug e) ≠ named) →
       gradientValue blockType gradients attributes = VUndefined)
  ∧ (truthy named = false →
       gradientValue blockType gradients attributes = raw).
Proof.
  intros Hsupport. cbv zeta.
  unfold gradientValue, effectiveValue, getGradientValueBySlug,
    channelSlug, channelOverride. simpl slugAttribute. simpl overrideKey.
  rewrite Hsupport. simpl.
  destruct (truthy (getAttr attributes "gradient")) eqn:Hslug.
  - repeat split; try done. intros _ Hunknown.
    by apply resolveBySlug_unknown.
  - repeat split; done.
Qed.

Lemma gradient_value_priority_witness :
  gradientValue gradientBlock redPalette
    {[ "style" := VObject {[ "color" :=
                    VObject {[ "gradient" := VString "#ff0000" ]} ]} ]}
  = VString "#ff0000"
  ∧ gradientValue gradientBlock redPalette
      (<[ "gradient" := VString "red" ]>
         {[ "style" := VObject {[ "color" :=
                         VObject {[ "gradient" := VString "#123456" ]} ]} ]})
    = VString "#ff0000".
Proof.
  split.
  - exact (proj2 (proj2 (proj2
      (gradient_value_priority gradientBlock redPalette
         {[ "style" := VObject {[ "color" :=
                         VObject {[ "gradient" := VString "#ff0000" ]} ]} ]}
         eq_refl))) eq_refl).
  - exact (proj1 (proj2
      (gradient_value_priority gradientBlock redPalette
         (<[ "gradient" := VString "red" ]>
            {[ "style" := VObject {[ "color" :=
                            VObject {[ "gradient" := VString "#123456" ]} ]} ]})
         eq_refl)) eq_refl).
Defined.

(** Without gradient support the panel is given no gradient. *)
Lemma gradientValue_unsupported blockType gradients attributes :
  hasGradientSupport blockType = false →
  gradientValue blockType gradients attributes = VUndefined.
Proof. intros H. unfold gradientValue. by rewrite H. Qed.

(** ** Block types without colour support *)

Section Unsupported.

Variable getColorClassName : string → JSValue → JSValue.
Variable __experimentalGetGradientClass : JSValue → JSValue.

(** C10. For a block type without colour support, addSaveProps
    returns its props as they are, whatever the attributes, and
    addAttributes returns the settings as they are: no backgroundColor,
    textColor or gradient attribute is added. *)
Theorem no_color_support_unchanged blockType props attributes :
  hasColorSupport blockType = false →
  addSaveProps getColorClassName __experimentalGetGradientClass
    props blockType attributes
  = props
  ∧ addAttributes blockType = blockType.
Proof.
  intros Hnone. unfold addSaveProps, addAttributes. rewrite Hnone. by simpl.
Qed.

End Unsupported.

Lemma no_color_support_unchanged_witness :
  addSaveProps sampleColorClassName sampleGradientClass
    {[ "className" := VString "wp-block-quote" ]} plainBlock
    {[ "backgroundColor" := VString "red" ]}
  = {[ "className" := VString "wp-block-quote" ]}
  ∧ addAttributes plainBlock = plainBlock.
Proof.
  exact (no_color_support_unchanged sampleColorClassName sampleGradientClass
           plainBlock {[ "className" := VString "wp-block-quote" ]}
           {[ "backgroundColor" := VString "red" ]} eq_refl).
Defined.

Example color_support_adds_attributes :
  attributes (addAttributes gradientBlock)
  = <[ "gradient" := stringAttribute ]>
      (<[ "textColor" := stringAttribute ]>
         {[ "backgroundColor" := stringAttribute ]}).
Proof. vm_compute. reflexivity. Qed.

(** ** Saved class names *)

Lemma truthy_jsOr a b : truthy (jsOr a b) = truthy a || truthy b.
Proof.
  unfold jsOr. destruct (truthy a) eqn:Ha; simpl; [exact Ha | reflexivity].
Qed.

Lemma truthy_jsAnd a b : truthy (jsAnd a b) = truthy a && truthy b.
Proof.
  unfold jsAnd. destruct (truthy a) eqn:Ha; simpl; [reflexivity | exact Ha].
Qed.

Lemma truthyKeys_cons k v entries :
  truthyKeys ((k, v) :: entries)
  = if truthy v then k :: truthyKeys entries else truthyKeys entries.
Proof.
  unfold truthyKeys. rewrite filter_cons. simpl.
  destruct (truthy v); reflexivity.
Qed.

(** With its condition false, the entry of the background class adds
    nothing to the classes of the literal. *)
Lemma truthyKeys_literal backgroundClass hasText hasBackground :
  truthy hasBackground = true →
  truthyKeys
    (objectLiteral
       [ (backgroundClass, VBool false);
         (VString "has-text-color", hasText);
         (VString "has-background", hasBackground) ])
  ≡ₚ (if truthy hasText then ["has-text-color"] else []) ++ ["has-background"].
Proof.
  intros Hbg. unfold objectLiteral. simpl.
  destruct (String.eqb (toPropertyKey backgroundClass) "has-text-color") eqn:E1;
    simpl.
  - rewrite !truthyKeys_cons, Hbg. by destruct (truthy hasText).
  - destruct (String.eqb (toPropertyKey backgroundClass) "has-background") eqn:E2;
      simpl.
    + rewrite !truthyKeys_cons, Hbg. destruct (truthy hasText); simpl; [|done].
      apply Permutation_swap.
    + rewrite !truthyKeys_cons, Hbg. simpl. by destruct (truthy hasText).
Qed.

Lemma append_empty a b : (a +:+ b) = "" → a = "" ∧ b = "".
Proof. destruct a; simpl; [done | discriminate]. Qed.

Lemma concat_nonempty sep l t :
  sep ≠ "" → t ∈ l → t ≠ "" → String.concat sep l ≠ "".
Proof.
  intros Hsep Hin Ht. destruct l as [|x [|y l']].
  - by apply not_elem_of_nil in Hin.
  - apply list_elem_of_singleton in Hin as ->. exact Ht.
  - simpl. intros [_ [H _]%append_empty]%append_empty. by apply Hsep.
Qed.

(** Gradient support is declared inside colour support. *)
Lemma hasGradientSupport_hasColorSupport blockType :
  hasGradientSupport blockType = true → hasColorSupport blockType = true.
Proof.
  unfold hasGradientSupport, hasColorSupport, hasBlockSupport.
  by destruct (getBlockSupport blockType COLOR_SUPPORT_KEY).
Qed.

Section SavedClassNames.

Variable getColorClassName : string → JSValue → JSValue.
Variable __experimentalGetGradientClass : JSValue → JSValue.

Abbreviation suppressed :=
  (backgroundSuppressed getColorClassName __experimentalGetGradientClass).
Abbreviation classes :=
  (savedClasses getColorClassName __experimentalGetGradientClass).

Lemma custom_gradient_suppressed props blockType attributes :
  hasGradientSupport blockType = true →
  truthy (channelOverride attributes Gradient) = true →
  suppressed props blockType attributes.
Proof.
  intros Hsupport Hcustom. unfold channelOverride in Hcustom. simpl in Hcustom.
  assert (Hclasses :
    classes props blockType attributes
    ≡ₚ classesWithoutBackground getColorClassName __experimentalGetGradientClass
         props attributes).
  { unfold savedClasses, classnamesList, saveClassArgs, classesWithoutBackground,
      channelOverride.
    cbv zeta. rewrite Hsupport, Hcustom. simpl concat. simpl overrideKey.
    rewrite app_nil_r. do 3 apply Permutation_app_head.
    apply truthyKeys_literal.
    rewrite !truthy_jsOr, truthy_jsAnd, !truthy_jsOr, Hcustom. simpl.
    by rewrite !orb_true_r. }
  assert (Hin : "has-background" ∈ classes props blockType attributes).
  { rewrite Hclasses. unfold classesWithoutBackground.
    rewrite !elem_of_app. do 4 right. apply list_elem_of_singleton. reflexivity. }
  unfold backgroundSuppressed. split; [|split; assumption].
  unfold addSaveProps.
  rewrite (hasGradientSupport_hasColorSupport _ Hsupport). simpl negb. cbv iota.
  unfold getAttr at 1. rewrite lookup_insert_eq. simpl default.
  unfold classnames. fold (classes props blockType attributes).
  assert (Hne : String.concat " " (classes props blockType attributes) ≠ "").
  { apply (concat_nonempty " " _ "has-background");
      [discriminate | exact Hin | discriminate]. }
  unfold truthy.
  by destruct
       (String.eqb_spec (String.concat " " (classes props blockType attributes)) "").
Qed.

(** C4. For a block type with gradient support and attributes that
    hold a gradient value of their own in style.color.gradient,
    addSaveProps leaves the class derived from the background slug out
    and puts has-background in.  In particular this is so for the
    attributes left by a gradient change to a custom value, one that is
    not in the gradient catalog. *)
Theorem custom_gradient_hides_background_class props blockType :
  hasGradientSupport blockType = true →
  (∀ attributes,
     truthy (channelOverride attributes Gradient) = true →
     suppressed props blockType attributes)
  ∧ (∀ gradients custom st,
       custom ≠ "" → resolveByValue gradients (Some custom) = None →
       suppressed props blockType
         (localAttributes (onChangeGradient gradients (Some custom) st))).
Proof.
  intros Hsupport. split.
  - intros attributes. by apply custom_gradient_suppressed.
  - intros gradients custom st Hcustom Hnone.
    apply custom_gradient_suppressed; [exact Hsupport|].
    rewrite (gradient_override_unmatched gradients (Some custom) st Hnone).
    simpl. by destruct (String.eqb_spec custom "").
Qed.

End SavedClassNames.

Lemma custom_gradient_hides_background_class_witness :
  backgroundSuppressed sampleColorClassName sampleGradientClass ∅ gradientBlock
    (localAttributes
       (onChangeGradient [] (Some "linear-gradient(135deg, #000, #fff)")
          (mount {[ "backgroundColor" := VString "red" ]}))).
Proof.
  refine (proj2
    (custom_gradient_hides_background_class sampleColorClassName
       sampleGradientClass ∅ gradientBlock eq_refl)
    [] "linear-gradient(135deg, #000, #fff)"
    (mount {[ "backgroundColor" := VString "red" ]}) _ eq_refl).
  discriminate.
Defined.

Example custom_gradient_saved_classes :
  getAttr
    (addSaveProps sampleColorClassName sampleGradientClass ∅ gradientBlock
       (localAttributes
          (onChangeGradient [] (Some "linear-gradient(135deg, #000, #fff)")
             (mount {[ "backgroundColor" := VString "red" ]}))))
    "className"
  = VString "has-background".
Proof. vm_compute. reflexivity. Qed.

Example named_gradient_saved_classes :
  getAttr
    (addSaveProps sampleColorClassName sampleGradientClass ∅ gradientBlock
       (<[ "gradient" := VString "midnight" ]>
          {[ "backgroundColor" := VString "red" ]}))
    "className"
  = VString
      "has-midnight-gradient-background has-red-background-color has-background".
Proof. vm_compute. reflexivity. Qed.

Example plain_background_saved_classes :
  getAttr
    (addSaveProps sampleColorClassName sampleGradientClass
       {[ "className" := VString "wp-block-group" ]} colorOnlyBlock
       {[ "backgroundColor" := VString "red" ]})
    "className"
  = VString "wp-block-group has-red-background-color has-background".
Proof. vm_compute. reflexivity. Qed.

(** * Further properties *)

(** ** Cleaning, field by field *)

Ltac solve_lookups :=
  repeat (rewrite lookup_insert || rewrite lookup_delete);
  repeat case_decide; congruence.

Lemma valueSize_field fields k x :
  fields !! k = Some x → valueSize x < valueSize (VObject fields).
Proof.
  intros Hk. simpl.
  rewrite <- (insert_delete_id fields k x Hk) at 1.
  rewrite map_fold_insert_L.
  - lia.
  - intros. lia.
  - apply lookup_delete_eq.
Qed.

(** Induction on a value through the properties of its objects. *)
Lemma JSValue_fields_ind (P : JSValue → Prop) :
  P VUndefined → (∀ b, P (VBool b)) → (∀ s, P (VString s)) →
  (∀ fields, (∀ k x, fields !! k = Some x → P x) → P (VObject fields)) →
  ∀ v, P v.
Proof.
  intros Hu Hb Hs Ho.
  assert (Hn : ∀ n v, valueSize v < n → P v).
  { induction n as [|n IH]; intros v Hlt; [lia|].
    destruct v as [| b | s | fields]; auto.
    apply Ho. intros k x Hk. apply IH.
    pose proof (valueSize_field _ _ _ Hk). lia. }
  intros v. apply (Hn (S (valueSize v))). lia.
Qed.

Lemma cleanEmptyObject_collapse_fields fields :
  cleanEmptyObject (VObject fields) = collapse (cleanFields fields).
Proof. reflexivity. Qed.

Lemma cleanEmptyObject_idempotent v :
  cleanEmptyObject (cleanEmptyObject v) = cleanEmptyObject v.
Proof.
  induction v as [| b | s | fields IH] using JSValue_fields_ind; try reflexivity.
  rewrite cleanEmptyObject_object. cbv zeta.
  destruct (decide _) as [|Hne]; [reflexivity|].
  rewrite cleanEmptyObject_object. cbv zeta.
  assert (Hfix : omap (λ x, keepDefined (cleanEmptyObject x))
                   (omap (λ x, keepDefined (cleanEmptyObject x)) fields)
                 = omap (λ x, keepDefined (cleanEmptyObject x)) fields).
  { apply map_eq. intros k. rewrite !lookup_omap.
    destruct (fields !! k) as [x|] eqn:Hk; simpl; [|done].
    specialize (IH k x Hk).
    destruct (cleanEmptyObject x) eqn:Hx; cbn -[cleanEmptyObject]; try done.
    by rewrite IH. }
  rewrite Hfix. by destruct (decide _).
Qed.

Lemma cleanFields_idempotent fields :
  cleanFields (cleanFields fields) = cleanFields fields.
Proof.
  unfold cleanFields. apply map_eq. intros k. rewrite !lookup_omap.
  destruct (fields !! k) as [x|]; simpl; [|done].
  pose proof (cleanEmptyObject_idempotent x) as Hx.
  destruct (cleanEmptyObject x); cbn -[cleanEmptyObject]; try done.
  by rewrite Hx.
Qed.

Lemma spread_collapse fields : spread (collapse fields) = fields.
Proof. unfold collapse. by destruct (decide _) as [->|]. Qed.

Lemma cleanFields_insert_leaf k x fields :
  cleanEmptyObject x = x →
  cleanFields (<[k := x]> fields) = putLeaf k x (cleanFields fields).
Proof.
  intros Hx. unfold cleanFields, putLeaf. rewrite omap_insert, Hx.
  by destruct (keepDefined x).
Qed.

Lemma cleanFields_insert_object k inner fields :
  cleanFields (<[k := VObject inner]> fields)
  = putObject k (cleanFields inner) (cleanFields fields).
Proof.
  unfold cleanFields at 1 3, putObject. rewrite omap_insert.
  rewrite cleanEmptyObject_collapse_fields. unfold collapse, cleanFields.
  by destruct (decide _).
Qed.

Lemma putLeaf_putLeaf k x y fields :
  putLeaf k y (putLeaf k x fields) = putLeaf k y fields.
Proof.
  unfold putLeaf. apply map_eq. intros j.
  destruct (keepDefined x), (keepDefined y); solve_lookups.
Qed.

Lemma putLeaf_comm k k' x y fields :
  k ≠ k' →
  putLeaf k' y (putLeaf k x fields) = putLeaf k x (putLeaf k' y fields).
Proof.
  intros Hne. unfold putLeaf. apply map_eq. intros j.
  destruct (keepDefined x), (keepDefined y); solve_lookups.
Qed.

Lemma putObject_putObject k inner inner' fields :
  putObject k inner' (putObject k inner fields) = putObject k inner' fields.
Proof.
  unfold putObject. apply map_eq. intros j.
  destruct (decide (inner = ∅)), (decide (inner' = ∅)); solve_lookups.
Qed.

(** ** The style a change leaves, in cleaned fields *)

Lemma changeChannel_style_fields colors gradients ch value st :
  getAttr (localAttributes (changeChannel colors gradients ch value st)) "style"
  = collapse
      (putObject "color"
         (putLeaf (overrideKey ch)
            (writtenOverride (channelCatalog colors gradients ch) value)
            (colorFields (localAttributes st)))
         (styleFields (localAttributes st))).
Proof.
  rewrite changeChannel_style. unfold withOverride.
  rewrite cleanEmptyObject_collapse_fields, cleanFields_insert_object.
  by rewrite cleanFields_insert_leaf by apply writtenOverride_clean.
Qed.

Lemma changeChannel_styleFields colors gradients ch value st :
  styleFields (localAttributes (changeChannel colors gradients ch value st))
  = putObject "color"
      (putLeaf (overrideKey ch)
         (writtenOverride (channelCatalog colors gradients ch) value)
         (colorFields (localAttributes st)))
      (styleFields (localAttributes st)).
Proof.
  unfold styleFields at 1. rewrite changeChannel_style. unfold withOverride.
  rewrite cleanEmptyObject_collapse_fields, spread_collapse, cleanFields_idempotent.
  rewrite cleanFields_insert_object.
  by rewrite cleanFields_insert_leaf by apply writtenOverride_clean.
Qed.

Lemma changeChannel_colorFields colors gradients ch value st :
  colorFields (localAttributes (changeChannel colors gradients ch value st))
  = putLeaf (overrideKey ch)
      (writtenOverride (channelCatalog colors gradients ch) value)
      (colorFields (localAttributes st)).
Proof.
  unfold colorFields at 1. rewrite changeChannel_style, color_withOverride.
  rewrite cleanEmptyObject_collapse_fields, spread_collapse, cleanFields_idempotent.
  by rewrite cleanFields_insert_leaf by apply writtenOverride_clean.
Qed.

(** What a change leaves under each attribute of the shadow. *)
Lemma changeChannel_lookup colors gradients ch value st k :
  localAttributes (changeChannel colors gradients ch value st) !! k
  = if decide (k = slugAttribute ch) then
      Some (channelSlug
              (localAttributes (changeChannel colors gradients ch value st)) ch)
    else if decide (k = "style") then
      Some (getAttr
              (localAttributes (changeChannel colors gradients ch value st))
              "style")
    else localAttributes st !! k.
Proof.
  rewrite changeChannel_slug, changeChannel_style.
  rewrite changeChannel_localAttributes, channelAttributes_eq. cbv zeta.
  rewrite lookup_union.
  destruct (decide (k = slugAttribute ch)) as [->|Hslug].
  - rewrite lookup_insert_eq. by destruct (localAttributes st !! _).
  - rewrite lookup_insert_ne by done.
    destruct (decide (k = "style")) as [->|Hstyle].
    + rewrite lookup_singleton_eq. by destruct (localAttributes st !! _).
    + rewrite lookup_singleton_ne by done.
      by destruct (localAttributes st !! k).
Qed.

Lemma withOverride_fields current key x :
  cleanEmptyObject x = x →
  cleanEmptyObject (withOverride current key x)
  = collapse
      (putObject "color" (putLeaf key x (colorFields current))
         (styleFields current)).
Proof.
  intros Hx. unfold withOverride.
  rewrite cleanEmptyObject_collapse_fields, cleanFields_insert_object.
  by rewrite cleanFields_insert_leaf.
Qed.

Lemma changeChannel_lookup_fields colors gradients ch value st k :
  localAttributes (changeChannel colors gradients ch value st) !! k
  = if decide (k = slugAttribute ch) then
      Some (let found :=
              slugOf (resolveByValue (channelCatalog colors gradients ch) value) in
            if truthy found then found else VUndefined)
    else if decide (k = "style") then
      Some (collapse
              (putObject "color"
                 (putLeaf (overrideKey ch)
                    (writtenOverride (channelCatalog colors gradients ch) value)
                    (colorFields (localAttributes st)))
                 (styleFields (localAttributes st))))
    else localAttributes st !! k.
Proof.
  rewrite changeChannel_lookup.
  by rewrite changeChannel_slug, changeChannel_style_fields.
Qed.

Lemma channelAttributes_fields colors gradients ch value current :
  channelAttributes colors gradients ch value current
  = let found := slugOf (resolveByValue (channelCatalog colors gradients ch) value) in
    <[slugAttribute ch := if truthy found then found else VUndefined]>
      {[ "style" :=
           collapse
             (putObject "color"
                (putLeaf (overrideKey ch)
                   (writtenOverride (channelCatalog colors gradients ch) value)
                   (colorFields current))
                (styleFields current)) ]}.
Proof.
  rewrite channelAttributes_eq. cbv zeta.
  by rewrite withOverride_fields by apply writtenOverride_clean.
Qed.

(** ** What a change touches *)

(** X1. The update a change hands to setAttributes has exactly two
    keys, style and the slug attribute of the channel, and the change
    leaves every other attribute held by the shadow as it was. *)
Theorem change_touches_style_and_slug colors gradients ch value st k :
  k ≠ "style" → k ≠ slugAttribute ch →
  dom (channelAttributes colors gradients ch value (localAttributes st))
  = {[ "style"; slugAttribute ch ]}
  ∧ localAttributes (changeChannel colors gradients ch value st) !! k
    = localAttributes st !! k.
Proof.
  intros Hstyle Hslug. split.
  - rewrite channelAttributes_eq. cbv zeta.
    rewrite dom_insert_L, dom_singleton_L. apply (comm_L (∪)).
  - rewrite changeChannel_lookup. rewrite decide_False by done.
    by rewrite decide_False.
Qed.

Lemma change_touches_style_and_slug_witness :
  localAttributes
    (changeChannel redPalette [] Background (Some "#ff0000")
       (mount articleAttributes)) !! "content"
  = Some (VString "Hello").
Proof.
  refine (eq_trans (proj2
    (change_touches_style_and_slug redPalette [] Background (Some "#ff0000")
       (mount articleAttributes) "content" _ _)) _);
    [discriminate | discriminate | reflexivity].
Defined.

Lemma changeChannel_same_update colors gradients ch earlier later st :
  channelAttributes colors gradients ch later
    (localAttributes (changeChannel colors gradients ch earlier st))
  = channelAttributes colors gradients ch later (localAttributes st).
Proof.
  rewrite !channelAttributes_fields. cbv zeta.
  rewrite changeChannel_styleFields, changeChannel_colorFields.
  by rewrite putLeaf_putLeaf, putObject_putObject.
Qed.

Lemma changeChannel_same_shadow colors gradients ch earlier later st :
  localAttributes
    (changeChannel colors gradients ch later
       (changeChannel colors gradients ch earlier st))
  = localAttributes (changeChannel colors gradients ch later st).
Proof.
  apply map_eq. intros k. rewrite !changeChannel_lookup_fields.
  rewrite changeChannel_styleFields, changeChannel_colorFields.
  rewrite putLeaf_putLeaf, putObject_putObject.
  by repeat case_decide.
Qed.

Lemma changeChannel_comm_shadow colors gradients ch ch' value value' st :
  ch ≠ ch' →
  localAttributes
    (changeChannel colors gradients ch' value'
       (changeChannel colors gradients ch value st))
  = localAttributes
      (changeChannel colors gradients ch value
         (changeChannel colors gradients ch' value' st)).
Proof.
  intros Hne.
  assert (Hkey : overrideKey ch ≠ overrideKey ch')
    by (intros H; by apply overrideKey_inj in H).
  assert (Hattr : slugAttribute ch ≠ slugAttribute ch')
    by (intros H; by apply slugAttribute_inj in H).
  pose proof (slugAttribute_not_style ch) as Hs.
  pose proof (slugAttribute_not_style ch') as Hs'.
  apply map_eq. intros k. rewrite !changeChannel_lookup_fields.
  rewrite !changeChannel_styleFields, !changeChannel_colorFields.
  rewrite !putObject_putObject.
  rewrite (putLeaf_comm (overrideKey ch) (overrideKey ch')) by done.
  repeat case_decide; congruence.
Qed.

(** X2. A change to a channel makes an earlier change to the same
    channel irrelevant: the update it commits and the shadow it leaves
    are those of the later change made alone.  In particular choosing
    the same value twice commits the same update twice and leaves the
    shadow as the first choice left it. *)
Theorem later_change_overrides colors gradients ch earlier later st :
  let st1 := changeChannel colors gradients ch earlier st in
  channelAttributes colors gradients ch later (localAttributes st1)
  = channelAttributes colors gradients ch later (localAttributes st)
  ∧ localAttributes (changeChannel colors gradients ch later st1)
    = localAttributes (changeChannel colors gradients ch later st)
  ∧ localAttributes (changeChannel colors gradients ch earlier st1)
    = localAttributes st1.
Proof.
  cbv zeta. split; [|split].
  - apply changeChannel_same_update.
  - apply changeChannel_same_shadow.
  - apply changeChannel_same_shadow.
Qed.

(** X3. Changes to two different channels can be made in either
    order: the shadow they leave is the same, and so is the style
    committed by whichever comes second. *)
Theorem changes_to_different_channels_commute colors gradients
    ch ch' value value' st :
  ch ≠ ch' →
  let first := changeChannel colors gradients ch value st in
  let first' := changeChannel colors gradients ch' value' st in
  localAttributes (changeChannel colors gradients ch' value' first)
  = localAttributes (changeChannel colors gradients ch value first')
  ∧ getAttr
      (channelAttributes colors gradients ch' value' (localAttributes first))
      "style"
    = getAttr
        (channelAttributes colors gradients ch value (localAttributes first'))
        "style".
Proof.
  intros Hne. cbv zeta.
  pose proof (changeChannel_comm_shadow colors gradients ch ch' value value' st Hne)
    as Hshadow.
  split; [exact Hshadow|].
  apply (f_equal (λ attrs, getAttr attrs "style")) in Hshadow.
  rewrite !changeChannel_style in Hshadow.
  rewrite !channelAttributes_eq. cbv zeta. unfold getAttr.
  rewrite !lookup_insert_ne by apply slugAttribute_not_style.
  by rewrite !lookup_singleton_eq.
Qed.

Lemma changes_to_different_channels_commute_witness :
  localAttributes
    (changeChannel redPalette twoGradients Gradient
       (Some "radial-gradient(red, blue)")
       (changeChannel redPalette twoGradients Text (Some "#ff0000")
          (mount articleAttributes)))
  = localAttributes
      (changeChannel redPalette twoGradients Text (Some "#ff0000")
         (changeChannel redPalette twoGradients Gradient
            (Some "radial-gradient(red, blue)") (mount articleAttributes))).
Proof.
  refine (proj1 (changes_to_different_channels_commute redPalette twoGradients
            Text Gradient (Some "#ff0000") (Some "radial-gradient(red, blue)")
            (mount articleAttributes) _)).
  discriminate.
Defined.

(** ** A batch, change by change *)

Lemma change_before_batch colors gradients ch value rest : ∀ st,
  ch ∈ rest.*1 →
  localAttributes
    (run colors gradients (batch rest)
       (changeChannel colors gradients ch value st))
  = localAttributes (run colors gradients (batch rest) st).
Proof.
  induction rest as [|[ch' value'] rest IH]; intros st Hin.
  - by apply not_elem_of_nil in Hin.
  - rewrite !run_batch_cons. destruct (decide (ch' = ch)) as [->|Hne].
    + apply run_localAttributes_ext, changeChannel_same_shadow.
    + simpl in Hin. apply elem_of_cons in Hin as [Heq|Hin]; [congruence|].
      rewrite <- (IH (changeChannel colors gradients ch' value' st) Hin).
      apply run_localAttributes_ext, changeChannel_comm_shadow. congruence.
Qed.

Lemma lastChanges_channels changes ch :
  ch ∈ (lastChanges changes).*1 → ch ∈ changes.*1.
Proof.
  induction changes as [|c rest IH]; [done|]. simpl.
  destruct (decide (c.1 ∈ rest.*1)); simpl; rewrite !elem_of_cons; intuition.
Qed.

(** X15. The shadow a batch of changes leaves is the one left by
    keeping, for each channel, only the last change made to it: at
    most one change per channel counts, and no earlier change to a
    channel shows through a later one. *)
Theorem batch_last_changes colors gradients changes st :
  localAttributes (run colors gradients (batch changes) st)
  = localAttributes (run colors gradients (batch (lastChanges changes)) st)
  ∧ NoDup (lastChanges changes).*1.
Proof.
  split.
  - revert st. induction changes as [|[ch value] rest IH]; intros st;
      [reflexivity|].
    simpl lastChanges. destruct (decide (ch ∈ rest.*1)) as [Hin|Hout].
    + rewrite run_batch_cons, <- IH. by apply change_before_batch.
    + rewrite !run_batch_cons. apply IH.
  - induction changes as [|[ch value] rest IH]; [apply NoDup_nil_2|].
    simpl lastChanges. destruct (decide (ch ∈ rest.*1)) as [Hin|Hout]; [done|].
    simpl. apply NoDup_cons. split; [|done].
    intros H. by apply Hout, lastChanges_channels.
Qed.

Example batch_keeps_last_changes :
  lastChanges
    [ (Text, Some "#111"); (Background, Some "#222"); (Text, None);
      (Gradient, Some "x"); (Background, Some "#333") ]
  = [ (Text, None); (Gradient, Some "x"); (Background, Some "#333") ].
Proof. reflexivity. Qed.

(** ** Round trip through the gradient channel *)

Lemma find_slug_unique (c : catalog) e :
  NoDup (slug <$> c) → e ∈ c →
  find (λ e', String.eqb (slug e') (slug e)) c = Some e.
Proof.
  induction c as [|a c IH]; intros Hnodup Hin.
  - by apply not_elem_of_nil in Hin.
  - simpl in *. apply NoDup_cons in Hnodup as [Hfresh Hnodup].
    destruct (String.eqb_spec (slug a) (slug e)) as [Heq|Hneq].
    + apply elem_of_cons in Hin as [->|Hin]; [done|].
      exfalso. apply Hfresh. rewrite Heq. by apply list_elem_of_fmap_2.
    + apply elem_of_cons in Hin as [->|Hin]; [done|]. by apply IH.
Qed.

Lemma resolveByValue_Some c value e :
  resolveByValue c value = Some e → e ∈ c ∧ value = Some (entryValue e).
Proof.
  destruct value as [v|]; [|discriminate]. simpl.
  intros [Hin Heq%String.eqb_eq]%find_some.
  split; [by apply list_elem_of_In | by rewrite Heq].
Qed.

Lemma gradientValue_supported blockType gradients attributes :
  hasGradientSupport blockType = true →
  gradientValue blockType gradients attributes
  = if truthy (channelSlug attributes Gradient)
    then resolveBySlug gradients (channelSlug attributes Gradient)
    else channelOverride attributes Gradient.
Proof. intros Hsupport. unfold gradientValue. by rewrite Hsupport. Qed.

(** X4. On a block type with gradient support and a gradient catalog
    whose slugs are all different, the gradient the panel shows after
    onChangeGradient is the value that was given: a catalog value is
    read back through its slug, a custom value from the style, and
    undefined shows no gradient. *)
Theorem gradient_change_round_trip blockType gradients value st :
  hasGradientSupport blockType = true →
  NoDup (slug <$> gradients) →
  gradientValue blockType gradients
    (localAttributes (onChangeGradient gradients value st))
  = ofOption value.
Proof.
  intros Hsupport Hnodup.
  change (onChangeGradient gradients value st)
    with (changeChannel [] gradients Gradient value st).
  rewrite (gradientValue_supported _ _ _ Hsupport).
  rewrite changeChannel_slug, changeChannel_override. cbv zeta.
  unfold writtenOverride. simpl channelCatalog.
  destruct (resolveByValue gradients value) as [e|] eqn:Hfind; simpl slugOf.
  - destruct (truthy (VString (slug e))) eqn:Hslug; rewrite ?Hslug; [|done].
    apply resolveByValue_Some in Hfind as [Hin ->].
    unfold resolveBySlug.
    by rewrite (find_slug_unique gradients e Hnodup Hin).
  - done.
Qed.

Lemma gradient_change_round_trip_witness :
  gradientValue gradientBlock twoGradients
    (localAttributes
       (onChangeGradient twoGradients
          (Some "linear-gradient(135deg, #ffceec, #9896f0)")
          (mount articleAttributes)))
  = VString "linear-gradient(135deg, #ffceec, #9896f0)".
Proof.
  refine (gradient_change_round_trip gradientBlock twoGradients
            (Some "linear-gradient(135deg, #ffceec, #9896f0)")
            (mount articleAttributes) eq_refl _).
  refine (bool_decide_unpack _ _). vm_compute. exact I.
Defined.

(** ** addAttributes *)

Lemma assignIfMissing_truthy name attrs :
  truthy (getAttr (assignIfMissing name attrs) name) = true.
Proof.
  unfold assignIfMissing.
  destruct (truthy (getAttr attrs name)) eqn:H; [exact H|].
  unfold getAttr. by rewrite lookup_insert_eq.
Qed.

Lemma assignIfMissing_id name attrs :
  truthy (getAttr attrs name) = true → assignIfMissing name attrs = attrs.
Proof. intros H. unfold assignIfMissing. by rewrite H. Qed.

Lemma assignIfMissing_lookup name attrs k :
  truthy (getAttr attrs k) = true ∨ k ≠ name →
  assignIfMissing name attrs !! k = attrs !! k.
Proof.
  intros Hk. unfold assignIfMissing.
  destruct (truthy (getAttr attrs name)) eqn:H; [done|].
  destruct (decide (k = name)) as [->|Hne].
  - destruct Hk; congruence.
  - by rewrite lookup_insert_ne.
Qed.

Lemma assignIfMissing_keeps name attrs k :
  truthy (getAttr attrs k) = true →
  truthy (getAttr (assignIfMissing name attrs) k) = true.
Proof.
  intros H. unfold getAttr.
  rewrite assignIfMissing_lookup by (by left). exact H.
Qed.

Lemma addAttributes_declared settings :
  hasColorSupport settings = true →
  truthy (getAttr (attributes (addAttributes settings)) "backgroundColor") = true
  ∧ truthy (getAttr (attributes (addAttributes settings)) "textColor") = true
  ∧ (hasGradientSupport settings = true →
     truthy (getAttr (attributes (addAttributes settings)) "gradient") = true).
Proof.
  intros Hsupport. unfold addAttributes. rewrite Hsupport. simpl.
  destruct (hasGradientSupport settings); simpl.
  - destruct (truthy (getAttr (assignIfMissing "textColor" _) "gradient"))
      eqn:Hgradient; simpl.
    + repeat split; try done.
      * apply assignIfMissing_keeps, assignIfMissing_truthy.
      * apply assignIfMissing_truthy.
    + unfold getAttr. rewrite !lookup_insert_ne by done.
      rewrite lookup_insert_eq. repeat split; try done.
      * apply assignIfMissing_keeps, assignIfMissing_truthy.
      * apply assignIfMissing_truthy.
  - repeat split; try done.
    + apply assignIfMissing_keeps, assignIfMissing_truthy.
    + apply assignIfMissing_truthy.
Qed.

Lemma addAttributes_supports settings :
  supports (addAttributes settings) = supports settings.
Proof. unfold addAttributes. by destruct (hasColorSupport settings). Qed.

(** X5. For a block type with colour support, after addAttributes the
    attributes backgroundColor and textColor are declared, and so is
    gradient when the block type has gradient support; without gradient
    support gradient is left as it was.  The declared support is not
    touched. *)
Theorem addAttributes_declares settings :
  hasColorSupport settings = true →
  let attrs' := attributes (addAttributes settings) in
  truthy (getAttr attrs' "backgroundColor") = true
  ∧ truthy (getAttr attrs' "textColor") = true
  ∧ (if hasGradientSupport settings
     then truthy (getAttr attrs' "gradient") = true
     else attrs' !! "gradient" = attributes settings !! "gradient")
  ∧ supports (addAttributes settings) = supports settings.
Proof.
  intros Hsupport. cbv zeta.
  destruct (addAttributes_declared settings Hsupport) as (Hbg & Htext & Hgradient).
  split; [exact Hbg | split; [exact Htext | split]].
  - destruct (hasGradientSupport settings) eqn:Hg; [by apply Hgradient|].
    unfold addAttributes. rewrite Hsupport, Hg. simpl.
    by rewrite !assignIfMissing_lookup by (by right).
  - apply addAttributes_supports.
Qed.

Lemma addAttributes_declares_witness :
  truthy (getAttr (attributes (addAttributes headingSettings)) "gradient") = true.
Proof.
  exact (proj1 (proj2 (proj2 (addAttributes_declares headingSettings eq_refl)))).
Defined.

(** X6. addAttributes keeps every attribute the block type already
    declares, with its own definition and default, and touches no
    attribute other than backgroundColor, textColor and gradient. *)
Theorem addAttributes_preserves settings k :
  truthy (getAttr (attributes settings) k) = true
  ∨ (k ≠ "backgroundColor" ∧ k ≠ "textColor" ∧ k ≠ "gradient") →
  attributes (addAttributes settings) !! k = attributes settings !! k.
Proof.
  intros Hk. unfold addAttributes.
  destruct (hasColorSupport settings); simpl; [|done].
  assert (H1 : assignIfMissing "backgroundColor" (attributes settings) !! k
               = attributes settings !! k).
  { apply assignIfMissing_lookup. destruct Hk as [?|(?&?&?)]; auto. }
  assert (H2 : assignIfMissing "textColor"
                 (assignIfMissing "backgroundColor" (attributes settings)) !! k
               = attributes settings !! k).
  { rewrite <- H1. apply assignIfMissing_lookup.
    destruct Hk as [Ht|(?&?&?)]; [left|by right].
    unfold getAttr. by rewrite H1. }
  destruct (hasGradientSupport settings &&
            negb (truthy (getAttr (assignIfMissing "textColor" _) "gradient")))
    eqn:Hadd; [|exact H2].
  apply andb_true_iff in Hadd as [_ Hmissing%negb_true_iff].
  destruct (decide (k = "gradient")) as [->|Hne].
  - exfalso. destruct Hk as [Ht|(_&_&?)]; [|done].
    unfold getAttr in Hmissing, Ht. rewrite H2 in Hmissing. congruence.
  - by rewrite lookup_insert_ne.
Qed.

Lemma addAttributes_preserves_witness :
  attributes (addAttributes headingSettings) !! "textColor"
  = Some (VObject (<[ "default" := VString "primary" ]>
                     {[ "type" := VString "string" ]})).
Proof.
  exact (addAttributes_preserves headingSettings "textColor" (or_introl eq_refl)).
Defined.

(** X7. Running addAttributes a second time changes nothing. *)
Theorem addAttributes_idempotent settings :
  addAttributes (addAttributes settings) = addAttributes settings.
Proof.
  destruct (hasColorSupport settings) eqn:Hsupport.
  - destruct (addAttributes_declared settings Hsupport)
      as (Hbg & Htext & Hgradient).
    pose proof (addAttributes_supports settings) as Hsupports.
    assert (Hcolor : hasColorSupport (addAttributes settings) = true).
    { unfold hasColorSupport, hasBlockSupport, getBlockSupport in *.
      by rewrite Hsupports. }
    assert (Hsame : hasGradientSupport (addAttributes settings)
                    = hasGradientSupport settings).
    { unfold hasGradientSupport, getBlockSupport. by rewrite Hsupports. }
    unfold addAttributes at 1. rewrite Hcolor, Hsame. simpl.
    rewrite (assignIfMissing_id "backgroundColor") by exact Hbg.
    rewrite (assignIfMissing_id "textColor") by exact Htext.
    destruct (hasGradientSupport settings); simpl.
    + rewrite Hgradient by done. simpl. rewrite Hsupports.
      unfold addAttributes. by rewrite Hsupport.
    + rewrite Hsupports. unfold addAttributes. by rewrite Hsupport.
  - assert (Hid : addAttributes settings = settings)
      by (unfold addAttributes; by rewrite Hsupport).
    by rewrite !Hid.
Qed.

(** ** The conditions of the class literal *)

Lemma truthyKeys_keys entries k : k ∈ truthyKeys entries → k ∈ entries.*1.
Proof.
  induction entries as [|[k' v'] entries IH]; [done|].
  rewrite truthyKeys_cons. simpl. destruct (truthy v').
  - rewrite !elem_of_cons. intros [->|H]; [by left | right; by apply IH].
  - rewrite elem_of_cons. right. by apply IH.
Qed.

Lemma setEntry_keys k v entries j :
  j ∈ (setEntry k v entries).*1 ↔ j = k ∨ j ∈ entries.*1.
Proof.
  induction entries as [|[k' v'] entries IH]; simpl.
  - rewrite list_elem_of_singleton. set_unfold. tauto.
  - destruct (String.eqb_spec k' k) as [->|Hne]; simpl.
    + rewrite !elem_of_cons. tauto.
    + rewrite !elem_of_cons, IH. tauto.
Qed.

Lemma setEntry_NoDup k v entries :
  NoDup entries.*1 → NoDup (setEntry k v entries).*1.
Proof.
  induction entries as [|[k' v'] entries IH]; simpl; intros Hnodup.
  - apply NoDup_singleton.
  - apply NoDup_cons in Hnodup as [Hfresh Hnodup].
    destruct (String.eqb_spec k' k) as [->|Hne]; simpl.
    + by apply NoDup_cons.
    + apply NoDup_cons. split; [|by apply IH].
      rewrite setEntry_keys. intros [->|H]; [done | by apply Hfresh].
Qed.

(** The key just written holds exactly when its condition does. *)
Lemma truthyKeys_setEntry_same k v entries :
  NoDup entries.*1 →
  k ∈ truthyKeys (setEntry k v entries) ↔ truthy v = true.
Proof.
  induction entries as [|[k' v'] entries IH]; simpl; intros Hnodup.
  - rewrite truthyKeys_cons. destruct (truthy v).
    + rewrite elem_of_cons. tauto.
    + split; [|done]. intros H. by apply not_elem_of_nil in H.
  - apply NoDup_cons in Hnodup as [Hfresh Hnodup].
    destruct (String.eqb_spec k' k) as [->|Hne].
    + rewrite truthyKeys_cons. destruct (truthy v).
      * rewrite elem_of_cons. tauto.
      * split; [|done]. intros H%truthyKeys_keys. by apply Hfresh in H.
    + rewrite truthyKeys_cons. destruct (truthy v').
      * rewrite elem_of_cons, IH by done. split; [|tauto].
        intros [H|H]; [congruence | done].
      * by apply IH.
Qed.

(** Writing another key does not change whether a key holds. *)
Lemma truthyKeys_setEntry_other k k' v entries :
  k ≠ k' →
  k ∈ truthyKeys (setEntry k' v entries) ↔ k ∈ truthyKeys entries.
Proof.
  intros Hne. induction entries as [|[j w] entries IH]; simpl.
  - rewrite truthyKeys_cons. destruct (truthy v).
    + rewrite elem_of_cons. split; [intros [?|?]; done | tauto].
    + done.
  - destruct (String.eqb_spec j k') as [->|Hj].
    + rewrite !truthyKeys_cons. destruct (truthy v), (truthy w);
        rewrite ?elem_of_cons; split; try tauto; intros [?|?]; try done; tauto.
    + rewrite !truthyKeys_cons. destruct (truthy w); [|exact IH].
      rewrite !elem_of_cons, IH. tauto.
Qed.

Lemma objectLiteral_three a b c :
  objectLiteral [a; b; c]
  = setEntry (toPropertyKey c.1) c.2
      (setEntry (toPropertyKey b.1) b.2 (setEntry (toPropertyKey a.1) a.2 [])).
Proof. reflexivity. Qed.

(** In a literal written with a first key and the two marker keys, each
    marker holds exactly when its condition does, and so does the first
    key when it is neither marker. *)
Lemma literal_conditions first v1 v2 v3 :
  let literal :=
    objectLiteral
      [ (first, v1); (VString "has-text-color", v2);
        (VString "has-background", v3) ] in
  ("has-text-color" ∈ truthyKeys literal ↔ truthy v2 = true)
  ∧ ("has-background" ∈ truthyKeys literal ↔ truthy v3 = true)
  ∧ (toPropertyKey first ≠ "has-text-color" →
     toPropertyKey first ≠ "has-background" →
     toPropertyKey first ∈ truthyKeys literal ↔ truthy v1 = true).
Proof.
  cbv zeta. rewrite objectLiteral_three. simpl fst. simpl snd.
  change (toPropertyKey (VString ?s)) with s.
  assert (H0 : NoDup ([] : list (string * JSValue)).*1) by apply NoDup_nil_2.
  pose proof (setEntry_NoDup (toPropertyKey first) v1 _ H0) as H1.
  pose proof (setEntry_NoDup "has-text-color" v2 _ H1) as H2.
  split; [|split].
  - rewrite truthyKeys_setEntry_other by discriminate.
    by apply truthyKeys_setEntry_same.
  - by apply truthyKeys_setEntry_same.
  - intros Htext Hbackground.
    rewrite !truthyKeys_setEntry_other by done.
    by apply truthyKeys_setEntry_same.
Qed.

(** ** addSaveProps, class by class *)

Section SavedMarkers.

Variable getColorClassName : string → JSValue → JSValue.
Variable __experimentalGetGradientClass : JSValue → JSValue.

Abbreviation saved :=
  (savedClasses getColorClassName __experimentalGetGradientClass).
Abbreviation conditional :=
  (conditionalClasses getColorClassName __experimentalGetGradientClass).
Abbreviation saveProps :=
  (addSaveProps getColorClassName __experimentalGetGradientClass).

Lemma savedClasses_split props blockType attributes :
  saved props blockType attributes
  = (classTokens (ClassValue (getAttr props "className"))
     ++ classTokens
          (ClassValue (getColorClassName "color" (getAttr attributes "textColor")))
     ++ classTokens
          (ClassValue
             (__experimentalGetGradientClass (getAttr attributes "gradient")))
     ++ conditional props blockType attributes)%list.
Proof.
  unfold savedClasses, conditionalClasses, classnamesList, saveClassArgs.
  cbv zeta. cbn [map concat lookup list_lookup]. by rewrite app_nil_r.
Qed.

Lemma conditional_in_saved props blockType attributes class :
  class ∈ conditional props blockType attributes →
  class ∈ saved props blockType attributes.
Proof. rewrite savedClasses_split, !elem_of_app. tauto. Qed.

(** X8. The literal passed to classnames yields has-text-color exactly
    when a text colour is set, by slug or as a custom value in
    style.color.text; the class is then among the saved classes. *)
Theorem text_color_marker props blockType attributes :
  let textSet :=
    jsOr (getAttr attributes "textColor") (channelOverride attributes Text) in
  ("has-text-color" ∈ conditional props blockType attributes
   ↔ truthy textSet = true)
  ∧ (truthy textSet = true →
     "has-text-color" ∈ saved props blockType attributes).
Proof.
  cbv zeta.
  assert (Hiff : "has-text-color" ∈ conditional props blockType attributes
                 ↔ truthy (jsOr (getAttr attributes "textColor")
                             (channelOverride attributes Text)) = true).
  { unfold conditionalClasses, saveClassArgs. cbv zeta.
    cbn [lookup list_lookup classTokens].
    apply literal_conditions. }
  split; [exact Hiff|]. intros H. by apply conditional_in_saved, Hiff.
Qed.

(** X9. The literal yields has-background exactly when a background
    slug or a custom background is set, or, on a block type with
    gradient support, a gradient slug or a custom gradient; the class
    is then among the saved classes.  Without gradient support a
    gradient alone never marks the block. *)
Theorem background_marker props blockType attributes :
  let backgroundSet :=
    truthy (getAttr attributes "backgroundColor")
    || truthy (channelOverride attributes Background)
    || (hasGradientSupport blockType
        && (truthy (getAttr attributes "gradient")
            || truthy (channelOverride attributes Gradient))) in
  ("has-background" ∈ conditional props blockType attributes
   ↔ backgroundSet = true)
  ∧ (backgroundSet = true →
     "has-background" ∈ saved props blockType attributes).
Proof.
  cbv zeta.
  assert (Hiff : "has-background" ∈ conditional props blockType attributes
    ↔ truthy (getAttr attributes "backgroundColor")
      || truthy (channelOverride attributes Background)
      || (hasGradientSupport blockType
          && (truthy (getAttr attributes "gradient")
              || truthy (channelOverride attributes Gradient))) = true).
  { unfold conditionalClasses, saveClassArgs. cbv zeta.
    cbn [lookup list_lookup classTokens].
    match goal with
    | |- _ ∈ truthyKeys (objectLiteral [(?first, ?v1); (_, ?v2); (_, ?v3)]) ↔ _ =>
        rewrite (proj1 (proj2 (literal_conditions first v1 v2 v3)))
    end.
    rewrite !truthy_jsOr, truthy_jsAnd, truthy_jsOr. simpl truthy.
    unfold channelOverride. simpl overrideKey. by rewrite orb_assoc. }
  split; [exact Hiff|]. intros H. by apply conditional_in_saved, Hiff.
Qed.

(** X10. When the helper gives a class for the background slug, the
    literal yields that class unless the block type has gradient
    support and a custom gradient is set: a gradient slug alone does
    not take the background class away. *)
Theorem background_class_condition props blockType attributes class :
  getColorClassName "background-color" (getAttr attributes "backgroundColor")
  = VString class →
  class ≠ "" → class ≠ "has-text-color" → class ≠ "has-background" →
  (class ∈ conditional props blockType attributes
   ↔ hasGradientSupport blockType = false
     ∨ truthy (channelOverride attributes Gradient) = false)
  ∧ (hasGradientSupport blockType = false
     ∨ truthy (channelOverride attributes Gradient) = false →
     class ∈ saved props blockType attributes).
Proof.
  intros Hclass Hne Htext Hbackground.
  assert (Hiff : class ∈ conditional props blockType attributes
                 ↔ hasGradientSupport blockType = false
                   ∨ truthy (channelOverride attributes Gradient) = false).
  { unfold conditionalClasses, saveClassArgs. cbv zeta.
    cbn [lookup list_lookup classTokens]. rewrite Hclass.
    match goal with
    | |- _ ∈ truthyKeys (objectLiteral [(?first, ?v1); (_, ?v2); (_, ?v3)]) ↔ _ =>
        rewrite (proj2 (proj2 (literal_conditions first v1 v2 v3)) Htext Hbackground)
    end.
    unfold channelOverride. simpl overrideKey. simpl truthy.
    destruct (String.eqb_spec class ""); [done|]. simpl.
    rewrite andb_true_r, orb_true_iff, !negb_true_iff. tauto. }
  split; [exact Hiff|]. intros H. by apply conditional_in_saved, Hiff.
Qed.

(** X11. On a block type without gradient support, addSaveProps does
    not look at style.color.gradient: attributes that agree on the
    three slugs and on the custom text and background colours are
    saved with the same props. *)
Theorem custom_gradient_ignored_without_support props blockType attrs1 attrs2 :
  hasGradientSupport blockType = false →
  getAttr attrs1 "backgroundColor" = getAttr attrs2 "backgroundColor" →
  getAttr attrs1 "textColor" = getAttr attrs2 "textColor" →
  getAttr attrs1 "gradient" = getAttr attrs2 "gradient" →
  channelOverride attrs1 Text = channelOverride attrs2 Text →
  channelOverride attrs1 Background = channelOverride attrs2 Background →
  saveProps props blockType attrs1 = saveProps props blockType attrs2.
Proof.
  intros Hsupport Hbg Htext Hgradient Hctext Hcbg.
  unfold channelOverride in Hctext, Hcbg. simpl overrideKey in Hctext, Hcbg.
  unfold addSaveProps, classnames, saveClassArgs. cbv zeta.
  rewrite Hsupport, Hbg, Htext, Hgradient, Hctext, Hcbg.
  reflexivity.
Qed.

End SavedMarkers.

Lemma background_class_condition_witness :
  "has-red-background-color"
  ∈ savedClasses sampleColorClassName sampleGradientClass ∅ gradientBlock
      (<[ "gradient" := VString "midnight" ]>
         {[ "backgroundColor" := VString "red" ]}).
Proof.
  refine (proj2
    (background_class_condition sampleColorClassName sampleGradientClass
       ∅ gradientBlock
       (<[ "gradient" := VString "midnight" ]>
          {[ "backgroundColor" := VString "red" ]})
       "has-red-background-color" eq_refl _ _ _) (or_intror eq_refl));
    discriminate.
Defined.

Lemma custom_gradient_ignored_without_support_witness :
  addSaveProps sampleColorClassName sampleGradientClass ∅ colorOnlyBlock
    (<[ "style" := VObject {[ "color" :=
                     VObject {[ "gradient" := VString "linear-gradient(red, blue)" ]} ]} ]>
       {[ "backgroundColor" := VString "red" ]})
  = addSaveProps sampleColorClassName sampleGradientClass ∅ colorOnlyBlock
      {[ "backgroundColor" := VString "red" ]}.
Proof.
  exact (custom_gradient_ignored_without_support sampleColorClassName
           sampleGradientClass ∅ colorOnlyBlock
           (<[ "style" := VObject {[ "color" :=
                 VObject {[ "gradient" := VString "linear-gradient(red, blue)" ]} ]} ]>
              {[ "backgroundColor" := VString "red" ]})
           {[ "backgroundColor" := VString "red" ]}
           eq_refl eq_refl eq_refl eq_refl eq_refl eq_refl).
Defined.

(** ** The className addSaveProps writes *)

Lemma toPropertyKey_empty v : toPropertyKey v = "" → v = VString "".
Proof.
  destruct v as [| [] | s | fields]; try discriminate. simpl. by intros ->.
Qed.

Lemma objectLiteral_three_keys a b c k :
  k ∈ (objectLiteral [a; b; c]).*1 →
  k = toPropertyKey a.1 ∨ k = toPropertyKey b.1 ∨ k = toPropertyKey c.1.
Proof.
  rewrite objectLiteral_three, !setEntry_keys. simpl.
  rewrite elem_of_nil. tauto.
Qed.

Lemma concat_empty_iff (l : list string) :
  Forall (λ t, t ≠ "") l → String.concat " " l = "" ↔ l = [].
Proof.
  intros Hall. split; [|by intros ->].
  destruct l as [|t l]; [done|]. intros Hempty. exfalso.
  apply Forall_cons in Hall as [Ht _].
  apply (concat_nonempty " " (t :: l) t); [discriminate | by left | done | done].
Qed.

Section SavedClassName.

Variable getColorClassName : string → JSValue → JSValue.
Variable __experimentalGetGradientClass : JSValue → JSValue.

Abbreviation saved' :=
  (savedClasses getColorClassName __experimentalGetGradientClass).
Abbreviation saveProps' :=
  (addSaveProps getColorClassName __experimentalGetGradientClass).

Lemma classTokens_value_nonempty v :
  isObject v = false → Forall (λ t, t ≠ "") (classTokens (ClassValue v)).
Proof.
  destruct v as [| b | s | fields]; try done; intros _; simpl;
    try apply Forall_nil_2.
  destruct (String.eqb_spec s ""); simpl; [apply Forall_nil_2|].
  by apply Forall_singleton.
Qed.

Lemma conditionalClasses_nonempty props blockType attributes :
  Forall (λ t, t ≠ "")
    (conditionalClasses getColorClassName __experimentalGetGradientClass
       props blockType attributes).
Proof.
  apply Forall_forall. intros t Hin ->.
  unfold conditionalClasses, saveClassArgs in Hin. cbv zeta in Hin.
  cbn [lookup list_lookup classTokens] in Hin.
  pose proof (truthyKeys_keys _ _ Hin) as Hkey.
  apply objectLiteral_three_keys in Hkey as [Hkey|[Hkey|Hkey]];
    [|discriminate Hkey|discriminate Hkey].
  simpl fst in Hkey. symmetry in Hkey.
  pose proof Hkey as Hfirst. apply toPropertyKey_empty in Hfirst.
  match type of Hin with
  | _ ∈ truthyKeys (objectLiteral [(?first, ?v1); (_, ?v2); (_, ?v3)]) =>
      pose proof (proj2 (proj2 (literal_conditions first v1 v2 v3))) as Hcond
  end.
  rewrite Hkey in Hcond. specialize (Hcond ltac:(discriminate) ltac:(discriminate)).
  apply Hcond in Hin. rewrite Hfirst in Hin. simpl in Hin.
  by rewrite andb_false_r in Hin.
Qed.

(** X12. On a block type with colour support, addSaveProps changes no
    prop other than className, and the className it writes is never
    the empty string.  When props.className and the classes given by
    the two helpers are strings or undefined, className is written as
    undefined exactly when there is no class at all. *)
Theorem save_className_shape props blockType attributes k :
  hasColorSupport blockType = true →
  isObject (getAttr props "className") = false →
  isObject (getColorClassName "color" (getAttr attributes "textColor")) = false →
  isObject (__experimentalGetGradientClass (getAttr attributes "gradient"))
  = false →
  k ≠ "className" →
  saveProps' props blockType attributes !! k = props !! k
  ∧ getAttr (saveProps' props blockType attributes) "className" ≠ VString ""
  ∧ (getAttr (saveProps' props blockType attributes) "className" = VUndefined
     ↔ saved' props blockType attributes = []).
Proof.
  intros Hsupport Hclass Htext Hgradient Hk.
  unfold addSaveProps. rewrite Hsupport. simpl negb.
  cbv iota zeta. split; [by rewrite lookup_insert_ne|].
  unfold getAttr. rewrite !lookup_insert_eq. simpl default.
  unfold classnames. fold (saved' props blockType attributes).
  assert (Hall : Forall (λ t, t ≠ "") (saved' props blockType attributes)).
  { rewrite savedClasses_split. rewrite !Forall_app.
    repeat split; try by apply classTokens_value_nonempty.
    apply conditionalClasses_nonempty. }
  pose proof (concat_empty_iff _ Hall) as Hempty.
  destruct (String.eqb_spec
              (String.concat " " (saved' props blockType attributes)) "")
    as [Heq|Hne]; simpl.
  - split; [discriminate|]. split; [intros _; by apply Hempty | done].
  - split; [congruence|]. split; [discriminate|].
    intros Hnil. exfalso. apply Hne. by apply Hempty.
Qed.

End SavedClassName.

Lemma save_className_shape_witness :
  getAttr
    (addSaveProps sampleColorClassName sampleGradientClass
       {[ "id" := VString "intro" ]} colorOnlyBlock ∅)
    "className"
  = VUndefined
  ∧ addSaveProps sampleColorClassName sampleGradientClass
      {[ "id" := VString "intro" ]} colorOnlyBlock ∅ !! "id"
    = Some (VString "intro").
Proof.
  pose proof (save_className_shape sampleColorClassName sampleGradientClass
    {[ "id" := VString "intro" ]} colorOnlyBlock ∅ "id"
    eq_refl eq_refl eq_refl eq_refl ltac:(discriminate)) as (Hframe & _ & Hiff).
  split; [by apply Hiff | exact Hframe].
Defined.

(** ** addEditProps *)

Section EditWrapper.

Variable getColorClassName : string → JSValue → JSValue.
Variable __experimentalGetGradientClass : JSValue → JSValue.

Abbreviation editProps :=
  (addEditProps getColorClassName __experimentalGetGradientClass).

(** X13. For settings with colour support, the wrapper props in the
    editor after addEditProps are the props of the block's own
    getEditWrapperProps, or none if it has no such function, passed
    through addSaveProps: every prop the block set itself other than
    className is kept.  Settings without colour support come back
    unchanged. *)
Theorem edit_wrapper_chains settings attributes :
  if hasColorSupport (settingsType settings) then
    editWrapperProps (editProps settings) attributes
    = addSaveProps getColorClassName __experimentalGetGradientClass
        (editWrapperProps settings attributes) (settingsType settings) attributes
    ∧ (∀ k, k ≠ "className" →
         editWrapperProps (editProps settings) attributes !! k
         = editWrapperProps settings attributes !! k)
    ∧ settingsType (editProps settings) = settingsType settings
  else editProps settings = settings.
Proof.
  unfold addEditProps.
  destruct (hasColorSupport (settingsType settings)) eqn:Hsupport;
    simpl negb; cbv iota; [|reflexivity].
  assert (Hchain :
    editWrapperProps
      (mkBlockSettings (settingsType settings)
         (Some (λ attributes0,
            addSaveProps getColorClassName __experimentalGetGradientClass
              match getEditWrapperProps settings with
              | Some existing => existing attributes0
              | None => ∅
              end (settingsType settings) attributes0)))
      attributes
    = addSaveProps getColorClassName __experimentalGetGradientClass
        (editWrapperProps settings attributes) (settingsType settings) attributes)
    by reflexivity.
  split; [exact Hchain | split; [|reflexivity]].
  intros k Hk. rewrite Hchain. unfold addSaveProps. rewrite Hsupport.
  simpl negb. cbv iota zeta. by rewrite lookup_insert_ne.
Qed.

End EditWrapper.

Example edit_wrapper_of_quote :
  editWrapperProps
    (addEditProps sampleColorClassName sampleGradientClass quoteSettings)
    (<[ "align" := VString "wide" ]> {[ "textColor" := VString "red" ]})
  = <[ "className" := VString "wp-block-quote has-red-color has-text-color" ]>
      {[ "data-align" := VString "wide" ]}.
Proof. vm_compute. reflexivity. Qed.

(** ** What the contrast checker is given *)

Lemma colorsDetectionEffect_element n st :
  nodeType n = ELEMENT_NODE →
  colorsDetectionEffect (Some n) st = Some (sampleOf n).
Proof.
  intros Hn. simpl. rewrite (getComputedStyle_element _ Hn). simpl.
  by rewrite ancestorBackground_firstOpaque.
Qed.

Lemma foundNodes_snoc lookups el :
  foundNodes (lookups ++ [el])
  = (foundNodes lookups ++ match el with Some n => [n] | None => [] end)%list.
Proof. unfold foundNodes. rewrite omap_app. by destruct el. Qed.

(** X14. When every node the lookup returns is an element, the effect
    never throws, and after any series of renders the colours given to
    the contrast checker are those sampled at the last render that
    found a node, whatever happened at the renders after it; they are
    undefined if no render found one. *)
Theorem detected_is_last_found lookups :
  Forall (λ el, ∀ n, el = Some n → nodeType n = ELEMENT_NODE) lookups →
  detectedAfter lookups
  = Some (default initialDetected (sampleOf <$> last (foundNodes lookups))).
Proof.
  induction lookups as [|el lookups IH] using rev_ind; intros Hall;
    [reflexivity|].
  apply Forall_app in Hall as [Hall Hel].
  apply (proj1 (Forall_singleton _ _)) in Hel.
  unfold detectedAfter in *. rewrite foldl_snoc, IH by done.
  change (Some ?x ≫= ?f) with (f x).
  rewrite foundNodes_snoc. destruct el as [n|].
  - rewrite last_snoc. simpl fmap. simpl default.
    by apply colorsDetectionEffect_element, (Hel n).
  - by rewrite app_nil_r.
Qed.

Lemma detected_is_last_found_witness :
  detectedAfter [Some clearPageBlock; Some clearBlock; None; None]
  = Some (sampleOf clearBlock).
Proof.
  refine (detected_is_last_found
            [Some clearPageBlock; Some clearBlock; None; None] _).
  repeat (apply Forall_cons; split;
          [intros n [= <-] || intros n [=]; reflexivity|]).
  apply Forall_nil_2.
Defined.

(** ** The first-time contributor label *)

Section FirstTimeContributorProperties.

Variable getAssociatedPullRequest : option PushCommit → Settled (option nat).

Abbreviation runScript :=
  (addFirstTimeContributorLabel getAssociatedPullRequest).
Abbreviation firstTime := (firstTimeMerge getAssociatedPullRequest).

Ltac run_cases payload services :=
  unfold addFirstTimeContributorLabel, firstTimeMerge, searchQuery, profileUrl;
  destruct (String.eqb_spec (ref payload) "refs/heads/master") as [Href|Href];
  simpl negb; cbv iota;
  [ destruct (head (commits payload)) as [c|] eqn:Hhead;
    [ destruct (getAssociatedPullRequest (Some c)) as [[[|pull]|]|] eqn:Hpull
    | destruct (getAssociatedPullRequest None) as [[[|pull]|]|] eqn:Hpull ];
    simpl truthyNumber; simpl negb; cbv iota zeta;
    try destruct (searchCommits services _) as [[|found]|] eqn:Hsearch;
    simpl Nat.eqb; simpl negb; cbv iota;
    try destruct (addLabels services _ _ _ _) as [[]|] eqn:Hlabel;
    try destruct (got services _) as [dotOrgUsername|] eqn:Hgot;
    try match goal with
        | |- context [truthy ?known] => destruct (truthy known) eqn:Hknown
        end;
    try destruct (createComment services _ _ _ _) as [[]|] eqn:Hcomment
  | ];
  simpl fst; simpl snd.

(** X16. Whatever the push and the answers, the requests sent form a
    beginning of one fixed sequence: the commit search, the label, the
    profile lookup, the comment; each is sent at most once, the label
    and the comment go to the same pull request of the pushed
    repository, and a push to another ref than master sends nothing. *)
Theorem requests_follow_one_path payload services :
  (∃ q issue url,
     (runScript payload services).1
     `prefix_of`
     [ SearchCommits q;
       AddLabels (repositoryOwnerLogin payload) (repositoryName payload) issue
         FIRST_TIME_LABELS;
       ProfileLookup url;
       CreateComment (repositoryOwnerLogin payload) (repositoryName payload) issue
         ACCOUNT_LINK_PROMPT ])
  ∧ (ref payload ≠ "refs/heads/master" →
     runScript payload services = ([], Fulfilled tt)).
Proof.
  split.
  - run_cases payload services;
      first
        [ by (exists "", 0, ""; apply prefix_nil)
        | by (eexists _, 0, ""; eexists; simpl; reflexivity)
        | by (eexists _, _, ""; eexists; simpl; reflexivity)
        | by (eexists _, _, _; eexists; simpl; reflexivity) ].
  - intros Href. unfold addFirstTimeContributorLabel.
    by destruct (String.eqb_spec (ref payload) "refs/heads/master").
Qed.

(** What a first-time merge always sends: the search, then the label. *)
Lemma first_time_run payload services c issue :
  firstTime payload services c issue →
  ∃ search rest,
    (runScript payload services).1
    = search
        :: AddLabels (repositoryOwnerLogin payload) (repositoryName payload)
             issue FIRST_TIME_LABELS
        :: rest
    ∧ search = SearchCommits (searchQuery payload c).
Proof.
  intros (Href & Hhead & Hpull & Hissue & Hsearch).
  unfold addFirstTimeContributorLabel. rewrite Href, Hhead, Hpull. simpl negb.
  destruct issue as [|pull]; [done|]. simpl truthyNumber. simpl negb.
  cbv iota zeta. unfold searchQuery in Hsearch. rewrite Hsearch.
  simpl Nat.eqb. simpl negb. cbv iota. simpl default.
  destruct (addLabels services _ _ _ _) as [[]|];
    [destruct (got services _) as [known|];
     [destruct (truthy known);
      [|destruct (createComment services _ _ _ _) as [[]|]]|]|];
    simpl; eexists _, _; split; reflexivity.
Qed.

(** X17. The label is put on a pull request exactly when the push is
    to master, its first commit belongs to that pull request, and the
    search finds no commit by the author of that commit. *)
Theorem label_exactly_for_first_time payload services issue :
  AddLabels (repositoryOwnerLogin payload) (repositoryName payload) issue
    FIRST_TIME_LABELS
  ∈ (runScript payload services).1
  ↔ ∃ c, firstTime payload services c issue.
Proof.
  split.
  - run_cases payload services; rewrite ?elem_of_cons, ?elem_of_nil;
      intros H; destruct_or?; try discriminate; try done;
      injection H as ->; exists c; by repeat split.
  - intros [c H]. apply first_time_run in H as (search & rest & -> & _).
    rewrite !elem_of_cons. by right; left.
Qed.

(** X18. The comment asking to link the accounts is written exactly
    when the label was due and put, and the profile lookup answered
    without a user name. *)
Theorem comment_exactly_when_unlinked payload services issue :
  CreateComment (repositoryOwnerLogin payload) (repositoryName payload) issue
    ACCOUNT_LINK_PROMPT
  ∈ (runScript payload services).1
  ↔ ∃ c, firstTime payload services c issue
         ∧ addLabels services (repositoryOwnerLogin payload)
             (repositoryName payload) issue FIRST_TIME_LABELS ≠ Rejected
         ∧ ∃ known, got services (profileUrl c) = Fulfilled known
                    ∧ truthy known = false.
Proof.
  split.
  - run_cases payload services; rewrite ?elem_of_cons, ?elem_of_nil;
      intros H; destruct_or?; try discriminate; try done;
      injection H as ->; exists c; simpl default.
    all: simpl default in *.
    all: split; [by repeat split|]; split; [by rewrite Hlabel|].
    all: by exists dotOrgUsername.
  - intros (c & (Href & Hhead & Hpull & Hissue & Hsearch) & Hlabel
              & known & Hgot & Hknown).
    unfold addFirstTimeContributorLabel. rewrite Href, Hhead, Hpull. simpl negb.
    destruct issue as [|pull]; [done|]. simpl truthyNumber. simpl negb.
    cbv iota zeta. unfold searchQuery in Hsearch. rewrite Hsearch.
    simpl Nat.eqb. simpl negb. cbv iota. simpl default.
    destruct (addLabels services _ _ _ _) as [[]|]; [|done].
    unfold profileUrl in Hgot. rewrite Hgot, Hknown.
    destruct (createComment services _ _ _ _) as [[]|]; simpl;
      rewrite !elem_of_cons; by do 3 right; left.
Qed.

(** X19. A profile lookup that fails is not fatal: when the label was
    due and put and the lookup is rejected, the promise is fulfilled,
    the label stays, and no comment is written. *)
Theorem lookup_failure_is_not_fatal payload services c issue :
  firstTime payload services c issue →
  addLabels services (repositoryOwnerLogin payload) (repositoryName payload)
    issue FIRST_TIME_LABELS ≠ Rejected →
  got services (profileUrl c) = Rejected →
  runScript payload services
  = ( [ SearchCommits (searchQuery payload c);
        AddLabels (repositoryOwnerLogin payload) (repositoryName payload) issue
          FIRST_TIME_LABELS;
        ProfileLookup (profileUrl c) ],
      Fulfilled tt ).
Proof.
  intros (Href & Hhead & Hpull & Hissue & Hsearch) Hlabel Hgot.
  unfold addFirstTimeContributorLabel. rewrite Href, Hhead, Hpull. simpl negb.
  destruct issue as [|pull]; [done|]. simpl truthyNumber. simpl negb.
  cbv iota zeta. unfold searchQuery in Hsearch. rewrite Hsearch.
  simpl Nat.eqb. simpl negb. cbv iota. simpl default.
  destruct (addLabels services _ _ _ _) as [[]|]; [|done].
  unfold profileUrl in Hgot. by rewrite Hgot.
Qed.

End FirstTimeContributorProperties.

Lemma lookup_failure_is_not_fatal_witness :
  addFirstTimeContributorLabel pullOfSample mergeOfPull21 (quietServices Rejected)
  = ( [ SearchCommits "repo:WordPress/gutenberg+author:newcomer";
        AddLabels "WordPress" "gutenberg" 21 FIRST_TIME_LABELS;
        ProfileLookup
          "https://profiles.wordpress.org/wp-json/wporg-github/v1/lookup/newcomer" ],
      Fulfilled tt ).
Proof.
  refine (lookup_failure_is_not_fatal pullOfSample mergeOfPull21
            (quietServices Rejected)
            (mkPushCommit "Fix typo (#21)" "newcomer") 21 _ _ eq_refl).
  - repeat split. discriminate.
  - discriminate.
Defined.

Example unlinked_newcomer_gets_comment :
  (addFirstTimeContributorLabel pullOfSample mergeOfPull21
     (quietServices (Fulfilled VUndefined))).1
  = [ SearchCommits "repo:WordPress/gutenberg+author:newcomer";
      AddLabels "WordPress" "gutenberg" 21 FIRST_TIME_LABELS;
      ProfileLookup
        "https://profiles.wordpress.org/wp-json/wporg-github/v1/lookup/newcomer";
      CreateComment "WordPress" "gutenberg" 21 ACCOUNT_LINK_PROMPT ].
Proof. reflexivity. Qed.
